(** * Table-to-parameter conversion helpers of the pizza and transportation
      notebooks

    The two helpers [convert_1d_array_to_dict] and [convert_2d_array_to_dict]
    (notebooks/pizza-lp/pizza-lp.ipynb, also reached as [helpers.*] from
    notebooks/transportation-lp/transportation-lp.ipynb) turn a numpy array,
    a pandas DataFrame or a pandas Series into a Python dict keyed by
    1-based indices.

    The embedding keeps what the Python code relies on:
    - an ndarray is a descriptor (buffer, offset, shape) over a store of
      buffers, so that [squeeze], [reshape] and integer indexing of an array
      of rank two or more return views that share the buffer of their
      argument, while [np.array([arr])] copies into fresh storage;
    - a dict is a list of key/value pairs in insertion order, which is the
      enumeration order of a Python dict;
    - every operation runs in a state-and-exception monad over the store. *)

From stdpp Require Import base decidable option numbers list strings.

Set Default Proof Using "Type".

(** ** Exceptions and the state-and-exception monad *)

(** [IndexError], [TypeError] and [ValueError] are the Python exceptions the
    operations below raise. [ShapeError] is the error class the design
    document names; no operation of the notebooks raises it. [InvalidRead]
    marks a read through a descriptor whose storage the store does not
    hold; it cannot happen from a well-formed state. *)
Inductive exn : Set :=
  | IndexError
  | TypeError
  | ValueError
  | ShapeError
  | InvalidRead.

Inductive result (X : Type) : Type :=
  | Ok (x : X)
  | Raise (e : exn).
Arguments Ok {X} x.
Arguments Raise {X} e.

#[global] Instance exn_eq_dec : EqDecision exn.
Proof. solve_decision. Defined.

(** Labels of a DataFrame or Series axis. *)
Inductive label : Set :=
  | LInt (n : nat)
  | LStr (s : string).

(** ** Python dicts: insertion-ordered association lists *)

Section Dict.
Context {K : Type} `{EqDecision K} {V : Type}.

(** [d[k] = v]: an existing key keeps its position, a new key goes last. *)
Fixpoint dict_setitem (k : K) (v : V) (d : list (K * V)) : list (K * V) :=
  match d with
  | [] => [(k, v)]
  | (k', v') :: d' =>
      if decide (k = k') then (k', v) :: d'
      else (k', v') :: dict_setitem k v d'
  end.

(** [d[k]], [None] standing for KeyError. *)
Fixpoint dict_getitem (k : K) (d : list (K * V)) : option V :=
  match d with
  | [] => None
  | (k', v') :: d' => if decide (k = k') then Some v' else dict_getitem k d'
  end.

Definition dict_keys (d : list (K * V)) : list K := d.*1.
Definition dict_values (d : list (K * V)) : list V := d.*2.
Definition dict_len (d : list (K * V)) : nat := length d.
End Dict.

(** ** numpy arrays over a store of buffers *)

Section Numpy.
Context {A : Type}.

Definition loc := nat.
(** The store: the buffers allocated so far, addressed by position. *)
Local Abbreviation heap := (list (list A)).

(** A C-contiguous array: [prod shape] cells of buffer [base], starting at
    [offset], in row-major order. *)
Record ndarray : Type := mk_ndarray {
  base : loc;
  offset : nat;
  shape : list nat
}.

(** What a subscript yields: a numpy scalar or a view. *)
Inductive item : Type :=
  | Scalar (x : A)
  | View (a : ndarray).

Record DataFrame : Type := mk_DataFrame {
  df_index : list label;
  df_columns : list label;
  df_values : ndarray
}.

Record Series : Type := mk_Series {
  s_index : list label;
  s_values : ndarray
}.

Inductive pyobj : Type :=
  | PyNdarray (a : ndarray)
  | PyDataFrame (df : DataFrame)
  | PySeries (s : Series).

Definition M (X : Type) : Type := heap → result X * heap.

#[global] Instance M_ret : MRet M := λ X x h, (Ok x, h).
#[global] Instance M_bind : MBind M := λ X Y f c h,
  match c h with
  | (Ok x, h') => f x h'
  | (Raise e, h') => (Raise e, h')
  end.
Definition raise {X} (e : exn) : M X := λ h, (Raise e, h).

(** [for x in xs: acc = body(acc, x)] *)
Fixpoint for_each {X S} (xs : list X) (body : S → X → M S) (acc : S) : M S :=
  match xs with
  | [] => mret acc
  | x :: xs' => acc' ← body acc x; for_each xs' body acc'
  end.

(** [range(n)] *)
Definition range (n : nat) : list nat := seq 0 n.

Definition prod (sh : list nat) : nat := foldr Nat.mul 1 sh.
Definition size (a : ndarray) : nat := prod (shape a).

(** The [k]-th cell of [a] in row-major order, read from the store. *)
Definition cell (h : heap) (a : ndarray) (k : nat) : option A :=
  buf ← h !! base a; buf !! (offset a + k).

Definition read_scalar (a : ndarray) : M A := λ h,
  match cell h a 0 with
  | Some x => (Ok x, h)
  | None => (Raise InvalidRead, h)
  end.

Definition read_block (a : ndarray) : M (list A) := λ h,
  match mapM (cell h a) (seq 0 (size a)) with
  | Some xs => (Ok xs, h)
  | None => (Raise InvalidRead, h)
  end.

Definition alloc (buf : list A) : M loc := λ h, (Ok (length h), h ++ [buf]).

(** [np.shape(arr)] *)
Definition np_shape (a : ndarray) : list nat := shape a.

(** [arr.shape[k]] *)
Definition shape_at (a : ndarray) (k : nat) : M nat :=
  match shape a !! k with
  | Some n => mret n
  | None => raise IndexError
  end.

(** [len(arr)] *)
Definition len (a : ndarray) : M nat :=
  match shape a with
  | [] => raise TypeError
  | n :: _ => mret n
  end.

(** [arr.squeeze()]: a view without the axes of length one. *)
Definition squeeze_shape (sh : list nat) : list nat :=
  filter (λ n, n ≠ 1) sh.
Definition squeeze (a : ndarray) : ndarray :=
  {| base := base a; offset := offset a; shape := squeeze_shape (shape a) |}.

(** [np.array([arr])]: a fresh array of shape [1 :: shape arr]. *)
Definition np_array1 (a : ndarray) : M ndarray :=
  buf ← read_block a;
  l ← alloc buf;
  mret {| base := l; offset := 0; shape := 1 :: shape a |}.

(** [arr.reshape(newshape)] on a contiguous array: a view. *)
Definition reshape (a : ndarray) (newshape : list nat) : M ndarray :=
  if decide (prod newshape = size a)
  then mret {| base := base a; offset := offset a; shape := newshape |}
  else raise ValueError.

(** The outcome of a subscript that selected the sub-array [sub]. *)
Definition subscript (sub : ndarray) : M item :=
  match shape sub with
  | [] => x ← read_scalar sub; mret (Scalar x)
  | _ :: _ => mret (View sub)
  end.

(** [arr[i]] for a non-negative integer [i] *)
Definition getitem (a : ndarray) (i : nat) : M item :=
  match shape a with
  | [] => raise IndexError
  | n :: rest =>
      if decide (i < n)
      then subscript {| base := base a;
                        offset := offset a + i * prod rest;
                        shape := rest |}
      else raise IndexError
  end.

(** [arr[i, j]] for non-negative integers [i], [j] *)
Definition getitem2 (a : ndarray) (i j : nat) : M item :=
  match shape a with
  | m :: n :: rest =>
      if decide (i < m ∧ j < n)
      then subscript {| base := base a;
                        offset := offset a + (i * n + j) * prod rest;
                        shape := rest |}
      else raise IndexError
  | _ => raise IndexError
  end.

(** [if isinstance(arr, pd.DataFrame) or isinstance(arr, pd.Series):
       arr = arr.values] *)
Definition as_ndarray (arr : pyobj) : ndarray :=
  match arr with
  | PyDataFrame df => df_values df
  | PySeries s => s_values s
  | PyNdarray a => a
  end.

(** ** The two converters *)

Definition convert_1d_array_to_dict (arr : pyobj) : M (list (nat * item)) :=
  let arr := as_ndarray arr in
  let arr := squeeze arr in
  arr ← (if decide (np_shape arr = []) then np_array1 arr else mret arr);
  n ← len arr;
  for_each (range n)
    (λ d i, v ← getitem arr i; mret (dict_setitem (i + 1) v d)) [].

(** The iterable of the first [for] is evaluated once, before the loop;
    the iterable of the second [for] is evaluated at each round of the
    first. *)
Definition convert_2d_array_to_dict (arr : pyobj) : M (list (nat * nat * item)) :=
  let arr := as_ndarray arr in
  m ← shape_at arr 0;
  for_each (range m)
    (λ d i,
       n ← shape_at arr 1;
       for_each (range n)
         (λ d j, v ← getitem2 arr i j; mret (dict_setitem (i + 1, j + 1) v d)) d)
    [].

(** ** The solution reshape of the transportation notebook *)

(** [pd.DataFrame(col, columns=[name])] for a list of numbers. *)
Definition frame_of_column (col : list A) (name : label) : M DataFrame :=
  l ← alloc col;
  mret {| df_index := LInt <$> range (length col);
          df_columns := [name];
          df_values := {| base := l; offset := 0; shape := [length col; 1] |} |}.

(** [solution.values.reshape(num_plant, num_warehouse)] *)
Definition solution_reshape (solution : DataFrame) (m n : nat) : M ndarray :=
  reshape (df_values solution) [m; n].

(** The number a scalar item holds; a view holds none. *)
Definition item_value (v : item) : option A :=
  match v with Scalar x => Some x | View _ => None end.
End Numpy.

Abbreviation heap A := (list (list A)).
Arguments item : clear implicits.
Arguments M : clear implicits.

(** ** Predicates used by the statements *)

Section Predicates.
Context {A : Type}.
Implicit Types (h : heap A) (a : ndarray).

(** Every cell of [a] is backed by the store. *)
Definition valid h a : Prop := ∀ k, k < size a → is_Some (cell h a k).

(** The sub-array [arr[i]] selects, and the one [arr[i, j]] selects. *)
Definition sub_array a (i : nat) : ndarray :=
  {| base := base a;
     offset := offset a + i * prod (tail (shape a));
     shape := tail (shape a) |}.
Definition sub_array2 a (i j : nat) : ndarray :=
  {| base := base a;
     offset := offset a + (i * default 0 (shape a !! 1) + j) * prod (drop 2 (shape a));
     shape := drop 2 (shape a) |}.

(** The item a subscript that selected [sub] evaluates to: the number held
    there for a rank-0 selection, else the view itself. *)
Definition item_of h (sub : ndarray) : item A :=
  match shape sub, cell h sub 0 with
  | [], Some x => Scalar x
  | _, _ => View sub
  end.

(** Cell at row [r], column [c] of a two-axis table, [table[r][c]]. *)
Definition cell2 h a (r c : nat) : option A :=
  cell h a (r * default 0 (shape a !! 1) + c).

(** Two arrays, each in its own store, that hold the same table. *)
Definition same_table h1 a1 h2 a2 : Prop :=
  shape a1 = shape a2 ∧ ∀ k, k < size a1 → cell h1 a1 k = cell h2 a2 k.

(** Items that denote the same value: equal numbers, or views of equal
    tables. *)
Definition item_equiv h1 h2 (v1 v2 : item A) : Prop :=
  match v1, v2 with
  | Scalar x, Scalar y => x = y
  | View a1, View a2 => same_table h1 a1 h2 a2
  | _, _ => False
  end.

Definition dict_equiv {K} h1 h2 (d1 d2 : list (K * item A)) : Prop :=
  Forall2 (λ p q, p.1 = q.1 ∧ item_equiv h1 h2 p.2 q.2) d1 d2.

(** Two outcomes that raise the same exception or return related values. *)
Definition result_rel {X Y} (R : X → Y → Prop)
    (r1 : result X) (r2 : result Y) : Prop :=
  match r1, r2 with
  | Ok x1, Ok x2 => R x1 x2
  | Raise e1, Raise e2 => e1 = e2
  | _, _ => False
  end.

(** A computation that leaves the store as it found it. *)
Definition pure {X} (c : M A X) : Prop := ∀ h, (c h).2 = h.
End Predicates.

(** ** The optimisation models the notebooks build

    A linear expression is kept as Pyomo builds it from [sum(...)]: the list
    of its terms in the order of the generator. A term is a variable of the
    model, alone or multiplied by the value of a parameter. *)

(** [pe.RangeSet(lo, hi)]: the integers lo, ..., hi, in order. *)
Definition RangeSet (lo hi : nat) : list nat := seq lo (S hi - lo).

Inductive relation : Set :=
  | Le
  | Ge.

Section Expressions.
Context {A : Type}.

(** [[f(x) for x in xs]]: each [f(x)] is evaluated in turn, the first
    exception ends the comprehension. *)
Fixpoint list_comp {X Y} (xs : list X) (f : X → M A Y) : M A (list Y) :=
  match xs with
  | [] => mret []
  | x :: xs' => y ← f x; ys ← list_comp xs' f; mret (y :: ys)
  end.

(** [c * model.x[i]] and [model.x[i]], for a variable index [i]. *)
Inductive term (I : Type) : Type :=
  | Times (c : item A) (x : I)
  | Just (x : I).

(** [lhs <= rhs] or [lhs >= rhs]. *)
Record constraint (I : Type) : Type := mk_constraint {
  c_lhs : list (term I);
  c_rel : relation;
  c_rhs : item A
}.

(** [model.p[k]] for a parameter initialised from the dict [p] and given
    no default: a key without a value raises ValueError. *)
Definition param_getitem {K} `{EqDecision K} (p : list (K * item A)) (k : K) :
    M A (item A) :=
  match dict_getitem k p with
  | Some v => mret v
  | None => raise ValueError
  end.

(** [df.iloc[i, j]] for non-negative integers [i], [j]. *)
Definition iloc (df : DataFrame) (i j : nat) : M A (item A) :=
  getitem2 (df_values df) i j.
End Expressions.

Arguments term : clear implicits.
Arguments Times {A I} c x.
Arguments Just {A I} x.
Arguments constraint : clear implicits.
Arguments mk_constraint {A I} c_lhs c_rel c_rhs.
Arguments c_lhs {A I} c.
Arguments c_rel {A I} c.
Arguments c_rhs {A I} c.

(** The same term, the same constraint, over renamed variables. *)
Definition term_map {A I J} (f : I → J) (t : term A I) : term A J :=
  match t with
  | Times c x => Times c (f x)
  | Just x => Just (f x)
  end.
Definition constraint_map {A I J} (f : I → J) (c : constraint A I) :
    constraint A J :=
  mk_constraint (term_map f <$> c_lhs c) (c_rel c) (c_rhs c).

(** The pizza notebook: profit per pizza, resource use per resource and
    pizza, and the amount of each resource at hand. *)
Module Pizza.
Section Pizza.
Context {A : Type}.

(** *** The concrete model *)

(** [decision_index = list(range(4))] *)
Definition decision_index : list nat := range 4.

(** [sum([profit.iloc[i, 0]*model.x[i] for i in decision_index])] *)
Definition concrete_objective (profit : DataFrame) : M A (list (term A nat)) :=
  list_comp decision_index (λ i, c ← iloc profit i 0; mret (Times c i)).

(** [sum([resource.iloc[r, i]*model.x[i] for i in decision_index])
       <= rhs.iloc[r, 0]], the expression of the constraint of row [r]. *)
Definition concrete_constraint (resource rhs : DataFrame) (r : nat) :
    M A (constraint A nat) :=
  lhs ← list_comp decision_index (λ i, c ← iloc resource r i; mret (Times c i));
  b ← iloc rhs r 0;
  mret (mk_constraint lhs Le b).

(** The objective, then [cons_dough], [cons_sauce], [cons_cheese],
    [cons_meat] and [cons_veggie]. *)
Definition concrete_model (profit resource rhs : DataFrame) :
    M A (list (term A nat) * list (constraint A nat)) :=
  obj ← concrete_objective profit;
  cons_dough ← concrete_constraint resource rhs 0;
  cons_sauce ← concrete_constraint resource rhs 1;
  cons_cheese ← concrete_constraint resource rhs 2;
  cons_meat ← concrete_constraint resource rhs 3;
  cons_veggie ← concrete_constraint resource rhs 4;
  mret (obj, [cons_dough; cons_sauce; cons_cheese; cons_meat; cons_veggie]).

(** *** The abstract model *)

(** The index sets and the dicts that initialise the parameters. *)
Record Model : Type := mk_Model {
  pizza_i : list nat;
  resource_i : list nat;
  profit : list (nat * item A);
  resource : list (nat * nat * item A);
  rhs : list (nat * item A)
}.

(** The declarations of the abstract model, from
    [model.pizza_i = pe.RangeSet(1, resource.shape[1])] to
    [model.rhs = pe.Param(model.resource_i, initialize=rhs_dict)]. *)
Definition abstract_model (profit resource rhs : pyobj) : M A Model :=
  n_pizza ← shape_at (as_ndarray resource) 1;
  n_resource ← shape_at (as_ndarray resource) 0;
  profit_dict ← convert_1d_array_to_dict profit;
  resource_dict ← convert_2d_array_to_dict resource;
  rhs_dict ← convert_1d_array_to_dict rhs;
  mret {| pizza_i := RangeSet 1 n_pizza;
          resource_i := RangeSet 1 n_resource;
          profit := profit_dict;
          resource := resource_dict;
          rhs := rhs_dict |}.

Definition objective_rule (model : Model) : M A (list (term A nat)) :=
  list_comp (pizza_i model)
    (λ p, c ← param_getitem (profit model) p; mret (Times c p)).

Definition resource_rule (model : Model) (r : nat) : M A (constraint A nat) :=
  lhs ← list_comp (pizza_i model)
          (λ p, c ← param_getitem (resource model) (r, p); mret (Times c p));
  b ← param_getitem (rhs model) r;
  mret (mk_constraint lhs Le b).
End Pizza.
Arguments Model : clear implicits.
End Pizza.

(** The transportation notebook: cost per plant and warehouse, demand per
    warehouse, capacity per plant. *)
Module Transportation.
Section Transportation.
Context {A : Type}.

Record Model : Type := mk_Model {
  warehouse_i : list nat;
  plant_i : list nat;
  cost : list (nat * nat * item A);
  demand : list (nat * item A);
  capacity : list (nat * item A)
}.

(** The declarations of the model, from
    [num_warehouse = demand.shape[0]] to
    [model.capacity = pe.Param(model.plant_i, initialize=capacity_dict)]. *)
Definition abstract_model (cost demand capacity : pyobj) : M A Model :=
  num_warehouse ← shape_at (as_ndarray demand) 0;
  num_plant ← shape_at (as_ndarray capacity) 0;
  cost_dict ← convert_2d_array_to_dict cost;
  demand_dict ← convert_1d_array_to_dict demand;
  capacity_dict ← convert_1d_array_to_dict capacity;
  mret {| warehouse_i := RangeSet 1 num_warehouse;
          plant_i := RangeSet 1 num_plant;
          cost := cost_dict;
          demand := demand_dict;
          capacity := capacity_dict |}.



End Transportation.
Arguments Model : clear implicits.
End Transportation.

(** ** Reading the solution back: [parse_solution] *)

Section Solution.
Context {A : Type} (nan : A).

(** A component of a solved instance: an indexed variable with the values
    of its entries in index order, or anything else (a set, a parameter, a
    constraint, an objective, a variable without index). *)
Inductive component : Type :=
  | IndexedVar (values : list A)
  | OtherComponent.

(** The names in [var], each with the values
    [[x.value for x in instance.component_map()[v].values()]]. *)
Definition indexed_vars (instance : list (label * component)) :
    list (label * list A) :=
  omap (λ xc, match xc.2 with
              | IndexedVar values => Some (xc.1, values)
              | OtherComponent => None
              end) instance.

(** The cell values of [pd.concat(dfs, axis=1)] for columns of any lengths:
    row by row, a column that has no row i gives NaN there. *)
Definition concat_cells (cols : list (list A)) (n : nat) : list A :=
  mjoin ((λ i, (λ col, default nan (col !! i)) <$> cols) <$> range n).

(** [pd.concat(dfs, axis=1)] for one-column frames that have the default
    index 0..n-1, as [parse_solution] builds them. *)
Definition pd_concat_axis1 (dfs : list DataFrame) : M A DataFrame :=
  match dfs with
  | [] => raise ValueError
  | _ :: _ =>
      cols ← list_comp dfs (λ df, read_block (df_values df));
      let n := max_list (length <$> cols) in
      l ← alloc (concat_cells cols n);
      mret {| df_index := LInt <$> range n;
              df_columns := mjoin (df_columns <$> dfs);
              df_values := {| base := l; offset := 0;
                              shape := [n; length dfs] |} |}
  end.

(** [df.index = index] *)
Definition set_index (df : DataFrame) (index : list label) : M A DataFrame :=
  if decide (length index = length (df_index df))
  then mret {| df_index := index;
               df_columns := df_columns df;
               df_values := df_values df |}
  else raise ValueError.

Definition parse_solution {Model : Type} (model : Model)
    (instance : list (label * component)) (index : option (list label)) :
    M A DataFrame :=
  let var := indexed_vars instance in
  dfs ← list_comp var (λ v, frame_of_column v.2 v.1);
  dfs ← pd_concat_axis1 dfs;
  match index with
  | Some index => set_index dfs index
  | None => mret dfs
  end.
End Solution.

Arguments component : clear implicits.
Arguments IndexedVar {A} values.
Arguments OtherComponent {A}.

(** [pe.Constraint(index, rule=rule)] when the instance is created: the rule
    is called once per index, in the order of the index set. *)
Definition indexed_constraints {A I} (index : list nat)
    (rule : nat → M A (constraint A I)) : M A (list (constraint A I)) :=
  list_comp index rule.

(** ** Sample data: the tables of the transportation notebook

    [cost] is a 3 x 4 DataFrame (plants by warehouses), [capacity] a 3 x 1
    DataFrame and [demand] a Series of length 4; their values live in
    [sample_store]. *)

Definition sample_store : heap Z :=
  [[8; 6; 10; 9; 9; 12; 13; 7; 14; 9; 16; 5]; [35; 50; 40]; [45; 20; 30; 30]]%Z.

Definition plants : list label := [LStr "MIN"; LStr "PIT"; LStr "TUC"].
Definition warehouses : list label :=
  [LStr "ATL"; LStr "BOS"; LStr "CHI"; LStr "DEN"].

Definition cost : pyobj :=
  PyDataFrame {| df_index := plants; df_columns := warehouses;
                 df_values := mk_ndarray 0 0 [3; 4] |}.
Definition capacity : pyobj :=
  PyDataFrame {| df_index := plants; df_columns := [LStr "capacity"];
                 df_values := mk_ndarray 1 0 [3; 1] |}.
Definition demand : pyobj :=
  PySeries {| s_index := warehouses; s_values := mk_ndarray 2 0 [4] |}.

(** The numbers of [cost] once more, in another store, at another place and
    without labels. *)
Definition other_store : heap Z :=
  [[0]; [99; 98; 8; 6; 10; 9; 9; 12; 13; 7; 14; 9; 16; 5; 97]]%Z.
Definition cost_copy : pyobj := PyNdarray (mk_ndarray 1 2 [3; 4]).


(** Tables for the pizza notebook: [pizza_profit] is 4 x 1 (pizzas),
    [pizza_resource] 5 x 4 (resources by pizzas), [pizza_rhs] 5 x 1. *)
Definition pizza_store : heap Z :=
  [[3; 4; 5; 6];
   [5; 4; 4; 6; 3; 2; 3; 4; 4; 3; 3; 5; 0; 1; 2; 0; 1; 0; 0; 2];
   [150; 90; 120; 40; 30]]%Z.
Definition pizzas : list label :=
  [LStr "cheese"; LStr "pepperoni"; LStr "sausage"; LStr "veggie"].
Definition ingredients : list label :=
  [LStr "dough"; LStr "sauce"; LStr "cheese"; LStr "meat"; LStr "veggie"].
Definition pizza_profit : DataFrame :=
  {| df_index := pizzas; df_columns := [LStr "profit"];
     df_values := mk_ndarray 0 0 [4; 1] |}.
Definition pizza_resource : DataFrame :=
  {| df_index := ingredients; df_columns := pizzas;
     df_values := mk_ndarray 1 0 [5; 4] |}.
Definition pizza_rhs : DataFrame :=
  {| df_index := ingredients; df_columns := [LStr "rhs"];
     df_values := mk_ndarray 2 0 [5; 1] |}.

(** A solved pizza instance: the variable [x] among other components, and
    an instance with a second, shorter indexed variable. *)
Definition pizza_instance : list (label * component Z) :=
  [(LStr "pizza_i", OtherComponent); (LStr "resource_i", OtherComponent);
   (LStr "x", IndexedVar [20; 0; 15; 5]%Z); (LStr "profit", OtherComponent);
   (LStr "obj", OtherComponent); (LStr "resource_cons", OtherComponent)].
Definition two_stage_instance : list (label * component Z) :=
  [(LStr "x", IndexedVar [20; 0; 15]%Z); (LStr "obj", OtherComponent);
   (LStr "y", IndexedVar [7; 8]%Z)].

(** Closes [valid h a] on concrete data, cell by cell. *)
Ltac solve_valid :=
  let k := fresh "k" in let Hk := fresh "Hk" in
  intros k Hk; vm_compute in Hk;
  repeat (destruct k as [|k]; [by eexists|]); lia.

Example convert_2d_run :
  convert_2d_array_to_dict (PyNdarray (mk_ndarray 0 0 [2; 2])) [[10; 20; 30; 40]]
  = (Ok [((1, 1), Scalar 10); ((1, 2), Scalar 20);
         ((2, 1), Scalar 30); ((2, 2), Scalar 40)], [[10; 20; 30; 40]]).
Proof. reflexivity. Qed.

Example convert_1d_run :
  convert_1d_array_to_dict (PyNdarray (mk_ndarray 0 1 [3; 1])) [[10; 20; 30; 40]]
  = (Ok [(1, Scalar 20); (2, Scalar 30); (3, Scalar 40)], [[10; 20; 30; 40]]).
Proof. reflexivity. Qed.

(** ** Dicts *)

Section DictFacts.
Context {K : Type} `{EqDecision K} {V : Type}.
Implicit Types (d : list (K * V)).

Lemma dict_setitem_fresh k v d :
  k ∉ d.*1 → dict_setitem k v d = d ++ [(k, v)].
Proof.
  induction d as [|[k' v'] d IH]; csimpl; intros Hk; [done|].
  apply not_elem_of_cons in Hk as [Hne Hk].
  case_decide; [done|]. by rewrite IH.
Qed.

Lemma dict_getitem_elem k v d :
  NoDup d.*1 → (k, v) ∈ d → dict_getitem k d = Some v.
Proof.
  induction d as [|[k' v'] d IH]; csimpl; intros Hnd Hin.
  - by apply elem_of_nil in Hin.
  - apply NoDup_cons in Hnd as [Hk' Hnd].
    apply elem_of_cons in Hin as [Heq|Hin].
    + injection Heq as -> ->. by rewrite decide_True.
    + case_decide as Hk; [|by apply IH].
      subst k'. exfalso. apply Hk'.
      change k with ((k, v).1). by apply list_elem_of_fmap_2.
Qed.

Lemma dict_getitem_lookup k v d (p : nat) :
  NoDup d.*1 → d !! p = Some (k, v) → dict_getitem k d = Some v.
Proof. intros Hnd Hp. eapply dict_getitem_elem, list_elem_of_lookup_2; eauto. Qed.
End DictFacts.

(** ** Loops in the monad *)

Section Loops.
Context {A : Type}.
Implicit Types (h : heap A).

Lemma bind_ok {X Y} (c : M A X) (f : X → M A Y) h x h' :
  c h = (Ok x, h') → (c ≫= f) h = f x h'.
Proof. intros E. unfold mbind, M_bind. by rewrite E. Qed.

(** A loop whose every round appends a block of fresh keys. *)
Lemma for_each_chunks {X K V} `{EqDecision K} (chunk : X → list (K * V))
    (body : list (K * V) → X → M A (list (K * V))) h xs acc :
  (∀ acc' x, x ∈ xs → NoDup (acc'.*1 ++ (chunk x).*1) →
     body acc' x h = (Ok (acc' ++ chunk x), h)) →
  NoDup (acc.*1 ++ (mjoin (chunk <$> xs)).*1) →
  for_each xs body acc h = (Ok (acc ++ mjoin (chunk <$> xs)), h).
Proof.
  revert acc. induction xs as [|x xs IH]; intros acc Hbody Hnd.
  - csimpl. by rewrite app_nil_r.
  - csimpl in *. rewrite fmap_app, app_assoc in Hnd.
    erewrite bind_ok; last first.
    { apply Hbody; [left|]. by apply NoDup_app in Hnd as (? & _ & _). }
    rewrite app_assoc. apply IH.
    + intros acc' y Hy. apply Hbody. by right.
    + by rewrite fmap_app.
Qed.

(** A dict comprehension [{key(x): f(x) for x in xs}] with distinct keys. *)
Lemma comprehension {X K V} `{EqDecision K} (key : X → K) (f : X → M A V)
    (val : X → V) h xs acc :
  (∀ x, x ∈ xs → f x h = (Ok (val x), h)) →
  NoDup (acc.*1 ++ (key <$> xs)) →
  for_each xs (λ d x, v ← f x; mret (dict_setitem (key x) v d)) acc h
  = (Ok (acc ++ ((λ x, (key x, val x)) <$> xs)), h).
Proof.
  revert acc. induction xs as [|x xs IH]; intros acc Hf Hnd.
  - csimpl. by rewrite app_nil_r.
  - csimpl in *. erewrite bind_ok; [|erewrite bind_ok; [reflexivity|]].
    2:{ apply Hf. left. }
    apply NoDup_app in Hnd as Hnd'. destruct Hnd' as (_ & Hfresh & Hxs).
    rewrite dict_setitem_fresh.
    2:{ intros Hin. apply (Hfresh _ Hin). left. }
    replace (acc ++ (key x, val x) :: ((λ x, (key x, val x)) <$> xs))
      with ((acc ++ [(key x, val x)]) ++ ((λ x, (key x, val x)) <$> xs))
      by (by rewrite <-app_assoc).
    apply IH.
    + intros y Hy. apply Hf. by right.
    + rewrite fmap_app. csimpl. by rewrite <-app_assoc.
Qed.

(** Keys of a cross product are pairwise distinct. *)
Lemma NoDup_cross {V} (val : nat → nat → V) (xs ys : list nat) :
  NoDup xs → NoDup ys →
  NoDup (mjoin ((λ i, (λ j, ((i + 1, j + 1), val i j)) <$> ys) <$> xs)).*1.
Proof.
  intros Hxs Hys. induction Hxs as [|x xs Hx Hxs IH]; csimpl; [constructor|].
  rewrite fmap_app. apply NoDup_app. split_and!; [|
    |done].
  - rewrite <-list_fmap_compose. apply NoDup_fmap_2_strong; [|done].
    intros j j' _ _ [=]. lia.
  - intros [i j]. rewrite <-list_fmap_compose.
    intros (j0 & [= -> ->] & _)%list_elem_of_fmap_1.
    intros ([k v] & Hk & (l & Hin & (i' & -> & Hi')%list_elem_of_fmap_1)%list_elem_of_join)%list_elem_of_fmap_1.
    apply list_elem_of_fmap_1 in Hin as (j' & [= -> ->] & _).
    simpl in Hk. injection Hk as Hk _. apply Hx.
    by replace x with i' by lia.
Qed.

Lemma cross_keys_range {V} (val : nat → nat → V) (m n : nat) (k : nat * nat) :
  k ∈ (mjoin ((λ i, (λ j, ((i + 1, j + 1), val i j)) <$> seq 0 n)
                <$> seq 0 m)).*1 →
  (1 ≤ k.1 ≤ m) ∧ (1 ≤ k.2 ≤ n).
Proof.
  intros ([k' v] & -> & (l & Hin & (i & -> & Hi)%list_elem_of_fmap_1)%list_elem_of_join)%list_elem_of_fmap_1.
  apply list_elem_of_fmap_1 in Hin as (j & [= -> ->] & Hj).
  apply elem_of_seq in Hi, Hj. simpl. lia.
Qed.

Lemma cross_lookup {V} (val : nat → nat → V) (m n i j : nat) :
  i < m → j < n →
  mjoin ((λ i, (λ j, ((i + 1, j + 1), val i j)) <$> seq 0 n) <$> seq 0 m)
    !! (i * n + j) = Some ((i + 1, j + 1), val i j).
Proof.
  intros Hi Hj. apply join_lookup_Some_same_length' with (n := n); [|done|].
  - apply Forall_fmap, Forall_forall. intros x _. simpl.
    by rewrite length_fmap, length_seq.
  - eexists. rewrite list_lookup_fmap, lookup_seq_lt by done. split; [done|].
    by rewrite list_lookup_fmap, lookup_seq_lt.
Qed.

Lemma cross_length {V} (val : nat → nat → V) (m n : nat) :
  length (mjoin ((λ i, (λ j, ((i + 1, j + 1), val i j)) <$> seq 0 n) <$> seq 0 m))
  = m * n.
Proof.
  rewrite length_join, <-list_fmap_compose.
  rewrite (sum_list_fmap_same n).
  - by rewrite length_seq.
  - apply Forall_forall. intros x _. simpl.
    by rewrite length_fmap, length_seq.
Qed.
End Loops.

(** ** Subscripts and the shape of the converters' results *)

Section ArrayFacts.
Context {A : Type}.
Implicit Types (h : heap A) (a sub : ndarray) (t : pyobj).

Lemma prod_squeeze sh : prod (squeeze_shape sh) = prod sh.
Proof.
  induction sh as [|n sh IH]; [done|].
  unfold squeeze_shape in *. rewrite filter_cons. case_decide; simpl.
  - by rewrite IH.
  - rewrite IH. destruct (decide (n = 1)) as [->|]; [lia|done].
Qed.

Lemma cell_squeeze h a k : cell h (squeeze a) k = cell h a k.
Proof. done. Qed.

Lemma valid_squeeze h a : valid h a → valid h (squeeze a).
Proof.
  intros Hv k Hk. rewrite cell_squeeze. apply Hv.
  unfold size in *. simpl in Hk. by rewrite prod_squeeze in Hk.
Qed.

Lemma cell_offset h a d sh k :
  cell h (mk_ndarray (base a) (offset a + d) sh) k = cell h a (d + k).
Proof. unfold cell; simpl. by rewrite Nat.add_assoc. Qed.

Lemma cell_sub_array h a i k :
  cell h (sub_array a i) k = cell h a (i * prod (tail (shape a)) + k).
Proof. unfold cell, sub_array; simpl. by rewrite Nat.add_assoc. Qed.

Lemma cell_sub_array2 h a i j k :
  cell h (sub_array2 a i j) k
  = cell h a ((i * default 0 (shape a !! 1) + j) * prod (drop 2 (shape a)) + k).
Proof. unfold cell, sub_array2; simpl. by rewrite Nat.add_assoc. Qed.

Lemma subscript_ok h sub :
  (shape sub = [] → is_Some (cell h sub 0)) →
  subscript sub h = (Ok (item_of h sub), h).
Proof.
  intros Hv. unfold subscript, item_of.
  destruct (shape sub) as [|n rest]; [|done].
  destruct (Hv eq_refl) as [x Hx].
  unfold mbind, M_bind, read_scalar. by rewrite Hx.
Qed.

Lemma getitem_ok h a i n rest :
  shape a = n :: rest → i < n →
  (rest = [] → is_Some (cell h a i)) →
  getitem a i h = (Ok (item_of h (sub_array a i)), h).
Proof.
  intros Hsh Hi Hv. unfold getitem. rewrite Hsh, decide_True by done.
  replace (mk_ndarray _ _ _) with (sub_array a i)
    by (unfold sub_array; by rewrite Hsh).
  apply subscript_ok. intros Hsub. rewrite cell_sub_array, Hsh. simpl.
  unfold sub_array in Hsub. rewrite Hsh in Hsub. simpl in Hsub.
  rewrite Hsub. simpl. rewrite Nat.mul_1_r, Nat.add_0_r. by apply Hv.
Qed.

Lemma getitem2_ok h a i j m n rest :
  shape a = m :: n :: rest → i < m → j < n →
  (rest = [] → is_Some (cell h a (i * n + j))) →
  getitem2 a i j h = (Ok (item_of h (sub_array2 a i j)), h).
Proof.
  intros Hsh Hi Hj Hv. unfold getitem2. rewrite Hsh, decide_True by done.
  replace (mk_ndarray _ _ _) with (sub_array2 a i j)
    by (unfold sub_array2; by rewrite Hsh).
  apply subscript_ok. intros Hsub. rewrite cell_sub_array2, Hsh. simpl.
  unfold sub_array2 in Hsub. rewrite Hsh in Hsub. simpl in Hsub.
  rewrite Hsub. simpl. rewrite Nat.mul_1_r, Nat.add_0_r. by apply Hv.
Qed.

(** An input that keeps at least one axis after squeezing: one entry per
    index of the first remaining axis. *)
Lemma convert_1d_axes t h n rest :
  squeeze_shape (shape (as_ndarray t)) = n :: rest →
  (rest = [] → valid h (as_ndarray t)) →
  convert_1d_array_to_dict t h
  = (Ok ((λ i, (i + 1, item_of h (sub_array (squeeze (as_ndarray t)) i)))
           <$> seq 0 n), h).
Proof.
  intros Hsh Hv. unfold convert_1d_array_to_dict, np_shape.
  set (a := squeeze (as_ndarray t)).
  assert (shape a = n :: rest) as Ha by done.
  rewrite decide_False by (by rewrite Ha).
  erewrite bind_ok by reflexivity.
  unfold len. rewrite Ha. erewrite bind_ok by reflexivity.
  unfold range.
  rewrite (comprehension (λ i, i + 1) (getitem a)
             (λ i, item_of h (sub_array a i))); [done| |].
  - intros i [_ Hi]%elem_of_seq. eapply getitem_ok; [done|lia|].
    intros ->. apply (valid_squeeze _ _ (Hv eq_refl)).
    unfold size. fold a. rewrite Ha. simpl. lia.
  - simpl. apply NoDup_fmap_2; [|apply NoDup_seq]. intros x y. lia.
Qed.

(** An input that squeezes to rank 0: the one value is copied to a fresh
    one-cell array, and that is converted. *)
Lemma convert_1d_single t h x :
  squeeze_shape (shape (as_ndarray t)) = [] →
  cell h (as_ndarray t) 0 = Some x →
  convert_1d_array_to_dict t h = (Ok [(1, Scalar x)], h ++ [[x]]).
Proof.
  intros Hsh Hx. unfold convert_1d_array_to_dict, np_shape.
  set (a := squeeze (as_ndarray t)).
  assert (shape a = []) as Ha by done.
  rewrite decide_True by done.
  assert (np_array1 a h = (Ok (mk_ndarray (length h) 0 [1]), h ++ [[x]])) as Hnew.
  { unfold np_array1, read_block, size. rewrite Ha. simpl.
    unfold mbind at 1, M_bind at 1. simpl.
    replace (cell h a 0) with (Some x). simpl.
    reflexivity. }
  erewrite bind_ok by exact Hnew.
  erewrite bind_ok by reflexivity.
  cbn [range seq for_each].
  assert (getitem (mk_ndarray (length h) 0 [1]) 0 (h ++ [[x]])
          = (Ok (Scalar x), h ++ [[x]])) as Hget.
  { erewrite (getitem_ok _ _ 0 1 []); [|done|lia|].
    - unfold item_of, cell. simpl. by rewrite list_lookup_middle by done.
    - intros _. unfold cell. simpl. by rewrite list_lookup_middle by done. }
  erewrite bind_ok; [|erewrite bind_ok by exact Hget; reflexivity]. done.
Qed.

(** An input with at least two axes: one entry per pair of indices of the
    first two axes, row by row. *)
Lemma convert_2d_axes t h m n rest :
  shape (as_ndarray t) = m :: n :: rest →
  (rest = [] → valid h (as_ndarray t)) →
  convert_2d_array_to_dict t h
  = (Ok (mjoin ((λ i, (λ j, ((i + 1, j + 1),
                              item_of h (sub_array2 (as_ndarray t) i j)))
                         <$> seq 0 n) <$> seq 0 m)), h).
Proof.
  intros Hsh Hv. unfold convert_2d_array_to_dict, shape_at.
  set (a := as_ndarray t) in *. rewrite Hsh. simpl.
  erewrite bind_ok by reflexivity. unfold range.
  rewrite (for_each_chunks
    (λ i, (λ j, ((i + 1, j + 1), item_of h (sub_array2 a i j))) <$> seq 0 n));
    [done| |].
  - intros acc i [_ Hi]%elem_of_seq Hnd.
    erewrite bind_ok by reflexivity.
    apply (comprehension (λ j, (i + 1, j + 1)) (getitem2 a i)
             (λ j, item_of h (sub_array2 a i j))).
    + intros j [_ Hj]%elem_of_seq. eapply getitem2_ok; [done|lia|lia|].
      intros ->. apply (Hv eq_refl). unfold size. rewrite Hsh. simpl. nia.
    + by rewrite <-list_fmap_compose in Hnd.
  - simpl. apply NoDup_cross; apply NoDup_seq.
Qed.
End ArrayFacts.

(** ** Well-shaped inputs: every entry is a number of the table *)

Section Dense.
Context {A : Type}.
Implicit Types (h : heap A) (a : ndarray) (t : pyobj).

Lemma item_of_vector h a n i :
  shape a = [n] → valid h a → i < n →
  ∃ x, cell h a i = Some x ∧ item_of h (sub_array a i) = Scalar x.
Proof.
  intros Hsh Hv Hi. destruct (Hv i) as [x Hx].
  { unfold size. rewrite Hsh. simpl. lia. }
  exists x. split; [done|]. unfold item_of.
  rewrite cell_sub_array. simpl. rewrite Hsh. simpl.
  by rewrite Nat.mul_1_r, Nat.add_0_r, Hx.
Qed.

Lemma item_of_matrix h a m n i j :
  shape a = [m; n] → valid h a → i < m → j < n →
  ∃ x, cell2 h a i j = Some x ∧ item_of h (sub_array2 a i j) = Scalar x.
Proof.
  intros Hsh Hv Hi Hj. unfold cell2. rewrite Hsh. simpl.
  destruct (Hv (i * n + j)) as [x Hx].
  { unfold size. rewrite Hsh. simpl. nia. }
  exists x. split; [done|]. unfold item_of.
  rewrite cell_sub_array2. simpl. rewrite Hsh. simpl.
  by rewrite Nat.mul_1_r, Nat.add_0_r, Hx.
Qed.

Lemma block_lookup h a (col : list A) :
  mapM (cell h a) (seq 0 (size a)) = Some col →
  length col = size a ∧ ∀ k, k < size a → col !! k = cell h a k.
Proof.
  intros Hcol%mapM_Some_1. split.
  - apply Forall2_length in Hcol. by rewrite length_seq in Hcol.
  - intros k Hk.
    destruct (Forall2_lookup_l _ _ _ k k Hcol) as (x & Hx & Hc).
    { by apply lookup_seq_lt. }
    by rewrite Hx, Hc.
Qed.

Lemma valid_block h a :
  valid h a → is_Some (mapM (cell h a) (seq 0 (size a))).
Proof.
  intros Hv. apply mapM_is_Some, Forall_forall.
  intros k [_ Hk]%elem_of_seq. by apply Hv.
Qed.

(** A table with two axes: the entries are the cells in row-major order. *)
Lemma convert_2d_matrix h t m n :
  shape (as_ndarray t) = [m; n] → valid h (as_ndarray t) →
  ∃ d, convert_2d_array_to_dict t h = (Ok d, h)
     ∧ length d = m * n
     ∧ NoDup d.*1
     ∧ (∀ k, k ∈ d.*1 → (1 ≤ k.1 ≤ m) ∧ (1 ≤ k.2 ≤ n))
     ∧ ∀ i j, i < m → j < n →
         ∃ x, cell2 h (as_ndarray t) i j = Some x
            ∧ d !! (i * n + j) = Some ((i + 1, j + 1), Scalar x).
Proof.
  intros Hsh Hv. eexists. split; [|split_and!].
  - apply (convert_2d_axes _ _ m n []); auto.
  - apply cross_length.
  - apply NoDup_cross; apply NoDup_seq.
  - apply cross_keys_range.
  - intros i j Hi Hj.
    destruct (item_of_matrix h _ m n i j Hsh Hv Hi Hj) as (x & Hx & Hit).
    exists x. split; [done|]. rewrite <-Hit.
    by apply (cross_lookup (λ i j, item_of h (sub_array2 (as_ndarray t) i j))).
Qed.

(** A table with at most one axis of length other than one: the entries
    are its cells in order. The store grows by one buffer exactly when the
    squeezed table has rank 0. *)
Lemma convert_1d_vector h t :
  length (squeeze_shape (shape (as_ndarray t))) ≤ 1 →
  valid h (as_ndarray t) →
  ∃ d h', convert_1d_array_to_dict t h = (Ok d, h')
     ∧ h `prefix_of` h'
     ∧ d.*1 = seq 1 (size (as_ndarray t))
     ∧ ∀ k, k < size (as_ndarray t) →
         ∃ x, cell h (as_ndarray t) k = Some x
            ∧ d !! k = Some (k + 1, Scalar x).
Proof.
  intros Hlen Hv. set (a := as_ndarray t) in *.
  assert (size a = prod (squeeze_shape (shape a))) as Hsize
    by (by rewrite prod_squeeze).
  destruct (squeeze_shape (shape a)) as [|n [|? ?]] eqn:Hsq;
    [| |simpl in Hlen; lia]; simpl in Hsize.
  - destruct (Hv 0) as [x Hx]; [lia|].
    exists [(1, Scalar x)], (h ++ [[x]]). split_and!.
    + by apply convert_1d_single.
    + by apply prefix_app_r.
    + by rewrite Hsize.
    + intros k Hk. exists x. by replace k with 0 by lia.
  - rewrite Nat.mul_1_r in Hsize. subst n. eexists _, h. split_and!.
    + apply (convert_1d_axes _ _ (size a) []); auto.
    + done.
    + rewrite <-list_fmap_compose, <-(fmap_add_seq 1 0). apply list_fmap_ext.
      intros; simpl; lia.
    + intros k Hk.
      destruct (item_of_vector h (squeeze a) (size a) k) as (x & Hx & Hit);
        [done|by apply valid_squeeze|done|].
      exists x. split; [done|]. fold a.
      by rewrite list_lookup_fmap, lookup_seq_lt, <-Hit.
Qed.
End Dense.

(** ** The store is only read; equal tables give equal results *)

Section Purity.
Context {A : Type}.
Implicit Types (h : heap A) (a sub : ndarray) (t : pyobj).

Lemma pure_ret {X} (x : X) : pure (A := A) (mret x).
Proof. done. Qed.

Lemma pure_raise {X} e : pure (A := A) (raise (X := X) e).
Proof. done. Qed.

Lemma pure_bind {X Y} (c : M A X) (f : X → M A Y) :
  pure c → (∀ x, pure (f x)) → pure (c ≫= f).
Proof.
  intros Hc Hf h. unfold mbind, M_bind. specialize (Hc h).
  destruct (c h) as [[x|e] h']; simpl in *; subst h'; [apply Hf|done].
Qed.

Lemma pure_for_each {X S} (body : S → X → M A S) xs acc :
  (∀ s x, pure (body s x)) → pure (for_each xs body acc).
Proof.
  intros Hb. revert acc. induction xs as [|x xs IH]; intros acc; simpl.
  - apply pure_ret.
  - apply pure_bind; auto.
Qed.

Lemma pure_subscript sub : pure (A := A) (subscript sub).
Proof.
  intros h. unfold subscript. destruct (shape sub); [|done].
  unfold mbind, M_bind, read_scalar. by destruct (cell h sub 0).
Qed.

Lemma pure_getitem a i : pure (A := A) (getitem a i).
Proof.
  unfold getitem. destruct (shape a); [apply pure_raise|].
  case_decide; [apply pure_subscript|apply pure_raise].
Qed.

Lemma pure_getitem2 a i j : pure (A := A) (getitem2 a i j).
Proof.
  unfold getitem2. destruct (shape a) as [|? [|? ?]]; try apply pure_raise.
  case_decide; [apply pure_subscript|apply pure_raise].
Qed.

Lemma pure_shape_at a k : pure (A := A) (shape_at a k).
Proof. unfold shape_at. by destruct (shape a !! k). Qed.

Lemma pure_len a : pure (A := A) (len a).
Proof. unfold len. by destruct (shape a). Qed.

Lemma pure_convert_2d t : pure (A := A) (convert_2d_array_to_dict t).
Proof.
  unfold convert_2d_array_to_dict.
  apply pure_bind; [apply pure_shape_at|]. intros m.
  apply pure_for_each. intros d i.
  apply pure_bind; [apply pure_shape_at|]. intros n.
  apply pure_for_each. intros d' j.
  apply pure_bind; [apply pure_getitem2|]. intros v. apply pure_ret.
Qed.

(** The part of [convert_1d_array_to_dict] after the promotion of a rank-0
    array. *)
Lemma pure_convert_1d_loop a :
  pure (A := A)
    (n ← len a;
     for_each (range n)
       (λ d i, v ← getitem a i; mret (dict_setitem (i + 1) v d)) []).
Proof.
  apply pure_bind; [apply pure_len|]. intros n.
  apply pure_for_each. intros d i.
  apply pure_bind; [apply pure_getitem|]. intros v. apply pure_ret.
Qed.

Lemma np_array1_grows a h : h `prefix_of` (np_array1 a h).2.
Proof.
  unfold np_array1, read_block, mbind, M_bind, alloc.
  destruct (mapM _ _); simpl; [by apply prefix_app_r|done].
Qed.

Lemma convert_1d_unfold t h :
  convert_1d_array_to_dict t h
  = let a := squeeze (as_ndarray t) in
    if decide (shape a = []) then
      match mapM (cell h a) (seq 0 (size a)) with
      | Some buf =>
          (n ← len (mk_ndarray (length h) 0 (1 :: shape a));
           for_each (range n)
             (λ d i, v ← getitem (mk_ndarray (length h) 0 (1 :: shape a)) i;
                     mret (dict_setitem (i + 1) v d)) []) (h ++ [buf])
      | None => (Raise InvalidRead, h)
      end
    else
      (n ← len a;
       for_each (range n)
         (λ d i, v ← getitem a i; mret (dict_setitem (i + 1) v d)) []) h.
Proof.
  unfold convert_1d_array_to_dict, np_shape. simpl.
  unfold mbind at 1, M_bind at 1. case_decide; [|done].
  unfold np_array1, read_block, mbind at 1, M_bind at 1.
  unfold mbind at 1, M_bind at 1. by destruct (mapM _ _).
Qed.

Lemma convert_1d_grows t h :
  h `prefix_of` (convert_1d_array_to_dict t h).2.
Proof.
  unfold convert_1d_array_to_dict.
  set (a := squeeze (as_ndarray t)). unfold mbind at 1, M_bind at 1.
  case_decide.
  - pose proof (np_array1_grows a h) as Hg.
    destruct (np_array1 a h) as [[a'|e] h']; simpl in *; [|done].
    by rewrite (pure_convert_1d_loop a' h').
  - simpl. by rewrite (pure_convert_1d_loop a h).
Qed.
End Purity.

Section Determinism.
Context {A : Type}.
Implicit Types (h : heap A) (a sub : ndarray) (t : pyobj).

Lemma mapM_ext_in {X Y} (f g : X → option Y) (l : list X) :
  (∀ x, x ∈ l → f x = g x) → mapM f l = mapM g l.
Proof.
  induction l as [|x l IH]; intros Hfg; [done|]. csimpl.
  rewrite (Hfg x) by left. destruct (g x); simpl; [|done].
  f_equal. apply IH. intros z Hz. apply Hfg. by right.
Qed.

Lemma dict_setitem_equiv {K} `{EqDecision K} h1 h2 (k : K) v1 v2
    (d1 d2 : list (K * item A)) :
  item_equiv h1 h2 v1 v2 → dict_equiv h1 h2 d1 d2 →
  dict_equiv h1 h2 (dict_setitem k v1 d1) (dict_setitem k v2 d2).
Proof.
  intros Hv Hd.
  induction Hd as [|[k1 w1] [k2 w2] d1 d2 [Hk Hw] Hd IH]; simpl in *.
  - by repeat constructor.
  - subst k2. case_decide; constructor; auto.
Qed.

(** Between dicts that hold numbers only, [dict_equiv] is equality. *)
Lemma dict_equiv_numbers {K} h1 h2 (d1 d2 : list (K * item A)) :
  Forall (λ p, is_Some (item_value p.2)) d1 →
  dict_equiv h1 h2 d1 d2 → d1 = d2.
Proof.
  intros Hnum Hd. induction Hd as [|[k1 v1] [k2 v2] d1 d2 [Hk Hv] Hd IH];
    [done|].
  apply Forall_cons in Hnum as [[x Hx] Hnum]. simpl in *.
  destruct v1 as [x1|a1], v2 as [x2|a2]; try done.
  simpl in Hv. subst. by rewrite IH.
Qed.

Lemma bind_rel {X1 X2 Y1 Y2} (RX : X1 → X2 → Prop) (RY : Y1 → Y2 → Prop)
    (c1 : M A X1) (c2 : M A X2) (f1 : X1 → M A Y1) (f2 : X2 → M A Y2) h1 h2 :
  pure c1 → pure c2 →
  result_rel RX (c1 h1).1 (c2 h2).1 →
  (∀ x1 x2, RX x1 x2 → result_rel RY (f1 x1 h1).1 (f2 x2 h2).1) →
  result_rel RY ((c1 ≫= f1) h1).1 ((c2 ≫= f2) h2).1.
Proof.
  intros Hp1 Hp2 Hc Hf. unfold mbind, M_bind.
  specialize (Hp1 h1). specialize (Hp2 h2).
  destruct (c1 h1) as [[x1|e1] h1'], (c2 h2) as [[x2|e2] h2'];
    simpl in *; subst; try done.
  by apply Hf.
Qed.

Lemma for_each_rel {X S1 S2} (R : S1 → S2 → Prop)
    (body1 : S1 → X → M A S1) (body2 : S2 → X → M A S2) h1 h2 xs acc1 acc2 :
  (∀ s x, pure (body1 s x)) → (∀ s x, pure (body2 s x)) →
  (∀ s1 s2 x, x ∈ xs → R s1 s2 →
     result_rel R (body1 s1 x h1).1 (body2 s2 x h2).1) →
  R acc1 acc2 →
  result_rel R (for_each xs body1 acc1 h1).1 (for_each xs body2 acc2 h2).1.
Proof.
  intros Hp1 Hp2. revert acc1 acc2.
  induction xs as [|x xs IH]; intros acc1 acc2 Hb Hacc; simpl; [done|].
  apply (bind_rel R R); auto.
  - apply Hb; [left|done].
  - intros s1 s2 Hs. apply IH; [|done].
    intros ? ? y Hy. apply Hb. by right.
Qed.

Lemma same_table_squeeze h1 a1 h2 a2 :
  same_table h1 a1 h2 a2 → same_table h1 (squeeze a1) h2 (squeeze a2).
Proof.
  intros [Hsh Hc]. split; simpl; [by rewrite Hsh|].
  intros k Hk. rewrite !cell_squeeze. apply Hc.
  unfold size in *. simpl in Hk. by rewrite prod_squeeze in Hk.
Qed.

Lemma subscript_rel h1 sub1 h2 sub2 :
  same_table h1 sub1 h2 sub2 →
  result_rel (item_equiv h1 h2) (subscript sub1 h1).1 (subscript sub2 h2).1.
Proof.
  intros [Hsh Hc]. unfold subscript. rewrite Hsh.
  destruct (shape sub2) as [|n rest] eqn:Hsub; simpl.
  - unfold mbind, M_bind, read_scalar. rewrite (Hc 0).
    + by destruct (cell h2 sub2 0).
    + unfold size. rewrite Hsh. simpl. lia.
  - split; [by rewrite Hsub|done].
Qed.

Lemma getitem_rel h1 a1 h2 a2 i :
  same_table h1 a1 h2 a2 →
  result_rel (item_equiv h1 h2) (getitem a1 i h1).1 (getitem a2 i h2).1.
Proof.
  intros [Hsh Hc]. unfold getitem. rewrite Hsh.
  destruct (shape a2) as [|n rest] eqn:Ha2; [done|].
  case_decide; [|done]. apply subscript_rel. split; [done|].
  intros k Hk. unfold size in Hk. simpl in Hk.
  rewrite !cell_offset. apply Hc.
  unfold size. rewrite Hsh. simpl. nia.
Qed.

Lemma getitem2_rel h1 a1 h2 a2 i j :
  same_table h1 a1 h2 a2 →
  result_rel (item_equiv h1 h2) (getitem2 a1 i j h1).1 (getitem2 a2 i j h2).1.
Proof.
  intros [Hsh Hc]. unfold getitem2. rewrite Hsh.
  destruct (shape a2) as [|m [|n rest]] eqn:Ha2; [done..|].
  case_decide as Hij; [|done]. destruct Hij as [Hi Hj].
  apply subscript_rel. split; [done|].
  intros k Hk. unfold size in Hk. simpl in Hk.
  rewrite !cell_offset. apply Hc.
  unfold size. rewrite Hsh. simpl.
  assert (i * n + j + 1 ≤ m * n) as Hrow by nia.
  assert ((i * n + j + 1) * prod rest ≤ m * n * prod rest) as Hblk
    by (by apply Nat.mul_le_mono_r).
  nia.
Qed.

Lemma convert_2d_rel h1 t1 h2 t2 :
  same_table h1 (as_ndarray t1) h2 (as_ndarray t2) →
  result_rel (dict_equiv h1 h2)
    (convert_2d_array_to_dict t1 h1).1 (convert_2d_array_to_dict t2 h2).1.
Proof.
  intros Hst. pose proof Hst as [Hsh _]. unfold convert_2d_array_to_dict.
  apply (bind_rel eq); [apply pure_shape_at..| |].
  { unfold shape_at. rewrite Hsh. by destruct (shape _ !! 0). }
  intros m ? <-. apply for_each_rel; [| | |constructor].
  - intros d i. apply pure_bind; [apply pure_shape_at|]. intros n.
    apply pure_for_each. intros d' j.
    apply pure_bind; [apply pure_getitem2|]. intros v. apply pure_ret.
  - intros d i. apply pure_bind; [apply pure_shape_at|]. intros n.
    apply pure_for_each. intros d' j.
    apply pure_bind; [apply pure_getitem2|]. intros v. apply pure_ret.
  - intros d1 d2 i _ Hd. apply (bind_rel eq); [apply pure_shape_at..| |].
    { unfold shape_at. rewrite Hsh. by destruct (shape _ !! 1). }
    intros n ? <-. apply for_each_rel; [| | |done].
    + intros d' j. apply pure_bind; [apply pure_getitem2|]. intros v. apply pure_ret.
    + intros d' j. apply pure_bind; [apply pure_getitem2|]. intros v. apply pure_ret.
    + intros e1 e2 j _ He.
      apply (bind_rel (item_equiv h1 h2)); [apply pure_getitem2..| |].
      * by apply getitem2_rel.
      * intros v1 v2 Hv. by apply dict_setitem_equiv.
Qed.

Lemma convert_1d_loop_rel h1 a1 h2 a2 :
  same_table h1 a1 h2 a2 →
  result_rel (dict_equiv h1 h2)
    ((n ← len a1;
      for_each (range n)
        (λ d i, v ← getitem a1 i; mret (dict_setitem (i + 1) v d)) []) h1).1
    ((n ← len a2;
      for_each (range n)
        (λ d i, v ← getitem a2 i; mret (dict_setitem (i + 1) v d)) []) h2).1.
Proof.
  intros Hst. pose proof Hst as [Hsh _].
  apply (bind_rel eq); [apply pure_len..| |].
  { unfold len. rewrite Hsh. by destruct (shape a2). }
  intros n ? <-. apply for_each_rel; [| | |constructor].
  - intros d i. apply pure_bind; [apply pure_getitem|]. intros v. apply pure_ret.
  - intros d i. apply pure_bind; [apply pure_getitem|]. intros v. apply pure_ret.
  - intros d1 d2 i _ Hd.
    apply (bind_rel (item_equiv h1 h2)); [apply pure_getitem..| |].
    + by apply getitem_rel.
    + intros v1 v2 Hv. by apply dict_setitem_equiv.
Qed.

Lemma convert_1d_rel h1 t1 h2 t2 :
  same_table h1 (as_ndarray t1) h2 (as_ndarray t2) →
  result_rel
    (dict_equiv (convert_1d_array_to_dict t1 h1).2
                (convert_1d_array_to_dict t2 h2).2)
    (convert_1d_array_to_dict t1 h1).1 (convert_1d_array_to_dict t2 h2).1.
Proof.
  intros Hst%same_table_squeeze. rewrite !convert_1d_unfold. cbv zeta.
  set (a1 := squeeze (as_ndarray t1)) in *.
  set (a2 := squeeze (as_ndarray t2)) in *.
  pose proof Hst as [Hsh Hc].
  rewrite (mapM_ext_in (cell h1 a1) (cell h2 a2)).
  2:{ intros k [_ Hk]%elem_of_seq. apply Hc. lia. }
  replace (size a1) with (size a2) by (unfold size; by rewrite Hsh).
  rewrite Hsh. case_decide as Hrank.
  - destruct (mapM (cell h2 a2) (seq 0 (size a2))) as [buf|] eqn:Hbuf;
      [|done].
    set (b1 := mk_ndarray (length h1) 0 (1 :: shape a2)).
    set (b2 := mk_ndarray (length h2) 0 (1 :: shape a2)).
    rewrite (pure_convert_1d_loop b1 (h1 ++ [buf])).
    rewrite (pure_convert_1d_loop b2 (h2 ++ [buf])).
    apply convert_1d_loop_rel. split; [done|].
    intros k _. unfold cell; simpl.
    by rewrite !list_lookup_middle by done.
  - rewrite (pure_convert_1d_loop a1 h1), (pure_convert_1d_loop a2 h2).
    by apply convert_1d_loop_rel.
Qed.
End Determinism.

(** ** Inputs of the wrong rank *)

Section WrongRank.
Context {A : Type}.
Implicit Types (h : heap A) (a : ndarray) (t : pyobj).

Lemma item_of_view h a : shape a ≠ [] → item_of h a = View a.
Proof. unfold item_of. by destruct (shape a). Qed.

Lemma convert_2d_rank0 t h :
  shape (as_ndarray t) = [] →
  convert_2d_array_to_dict t h = (Raise IndexError, h).
Proof.
  intros Hsh. unfold convert_2d_array_to_dict, shape_at. by rewrite Hsh.
Qed.

Lemma convert_2d_rank1 t h n :
  shape (as_ndarray t) = [n] →
  convert_2d_array_to_dict t h
  = if decide (n = 0) then (Ok [], h) else (Raise IndexError, h).
Proof.
  intros Hsh. unfold convert_2d_array_to_dict, shape_at. rewrite Hsh. simpl.
  erewrite bind_ok by reflexivity.
  destruct n as [|n]; [done|]. by rewrite decide_False by done.
Qed.

Lemma convert_2d_rank3 t h m n p rest :
  shape (as_ndarray t) = m :: n :: p :: rest →
  convert_2d_array_to_dict t h
  = (Ok (mjoin ((λ i, (λ j, ((i + 1, j + 1),
                              View (sub_array2 (as_ndarray t) i j)))
                         <$> seq 0 n) <$> seq 0 m)), h).
Proof.
  intros Hsh. rewrite (convert_2d_axes t h m n (p :: rest)) by done.
  do 2 f_equal. f_equal. apply list_fmap_ext. intros _ i _.
  apply list_fmap_ext. intros _ j _. f_equal.
  apply item_of_view. unfold sub_array2. by rewrite Hsh.
Qed.

Lemma convert_1d_rank2 t h n n' rest :
  squeeze_shape (shape (as_ndarray t)) = n :: n' :: rest →
  convert_1d_array_to_dict t h
  = (Ok ((λ i, (i + 1, View (sub_array (squeeze (as_ndarray t)) i)))
           <$> seq 0 n), h).
Proof.
  intros Hsh. rewrite (convert_1d_axes t h n (n' :: rest)) by done.
  do 2 f_equal. apply list_fmap_ext. intros _ i _. f_equal.
  apply item_of_view. unfold sub_array. simpl. by rewrite Hsh.
Qed.
End WrongRank.

(** * The properties of the converters *)

(** C1. For every two-axis table of shape m x n, [convert_2d_array_to_dict]
    returns a dict with exactly m * n entries, and for every i in 1..m and
    j in 1..n its value at key (i, j) is the number in the table cell at
    row i-1, column j-1. The store is left as it was. (Nothing here needs
    m, n >= 1: an empty table gives the empty dict.) *)
Theorem convert_2d_dense_cross_product {A} (h : heap A) (t : pyobj) (m n : nat) :
  shape (as_ndarray t) = [m; n] →
  valid h (as_ndarray t) →
  ∃ d, convert_2d_array_to_dict t h = (Ok d, h)
     ∧ dict_len d = m * n
     ∧ ∀ i j, 1 ≤ i ≤ m → 1 ≤ j ≤ n →
         ∃ x, cell2 h (as_ndarray t) (i - 1) (j - 1) = Some x
            ∧ dict_getitem (i, j) d = Some (Scalar x).
Proof.
  intros Hsh Hv.
  destruct (convert_2d_matrix h t m n Hsh Hv) as (d & Hrun & Hlen & Hnd & _ & Hd).
  exists d. split_and!; [done..|].
  intros i j Hi Hj. destruct (Hd (i - 1) (j - 1)) as (x & Hx & Hpos); [lia..|].
  exists x. split; [done|].
  replace (i - 1 + 1) with i in Hpos by lia.
  replace (j - 1 + 1) with j in Hpos by lia.
  by eapply dict_getitem_lookup.
Qed.

Lemma convert_2d_dense_cross_product_cost :
  shape (as_ndarray cost) = [3; 4] ∧ valid sample_store (as_ndarray cost) ∧
  ∃ d, convert_2d_array_to_dict cost sample_store = (Ok d, sample_store)
     ∧ dict_len d = 3 * 4
     ∧ ∀ i j, 1 ≤ i ≤ 3 → 1 ≤ j ≤ 4 →
         ∃ x, cell2 sample_store (as_ndarray cost) (i - 1) (j - 1) = Some x
            ∧ dict_getitem (i, j) d = Some (Scalar x).
Proof.
  assert (valid sample_store (as_ndarray cost)) as Hv by solve_valid.
  split; [reflexivity|]. split; [exact Hv|].
  apply (convert_2d_dense_cross_product sample_store cost 3 4); [reflexivity|exact Hv].
Defined.

(** C2. For every one-axis table of length n, and every n x 1 or 1 x n table
    (which squeezing brings to length n), [convert_1d_array_to_dict] returns
    a dict with exactly n entries whose value at key i, for i in 1..n, is
    the table element at position i-1. *)
Theorem convert_1d_dense {A} (h : heap A) (t : pyobj) (n : nat) :
  shape (as_ndarray t) ∈ [[n]; [n; 1]; [1; n]] →
  valid h (as_ndarray t) →
  ∃ d h', convert_1d_array_to_dict t h = (Ok d, h')
     ∧ dict_len d = n
     ∧ ∀ i, 1 ≤ i ≤ n →
         ∃ x, cell h (as_ndarray t) (i - 1) = Some x
            ∧ dict_getitem i d = Some (Scalar x).
Proof.
  intros Hsh Hv.
  assert (length (squeeze_shape (shape (as_ndarray t))) ≤ 1
          ∧ size (as_ndarray t) = n) as [Hrank Hsize].
  { unfold size, squeeze_shape.
    repeat (apply elem_of_cons in Hsh as [->|Hsh]);
      [| | |by apply elem_of_nil in Hsh];
      rewrite ?filter_cons, ?filter_nil; repeat case_decide; simpl; lia. }
  destruct (convert_1d_vector h t Hrank Hv) as (d & h' & Hrun & _ & Hkeys & Hd).
  rewrite Hsize in Hkeys, Hd.
  exists d, h'. split_and!; [done| |].
  - unfold dict_len. by rewrite <-(length_fmap fst), Hkeys, length_seq.
  - intros i Hi. destruct (Hd (i - 1)) as (x & Hx & Hpos); [lia|].
    exists x. split; [done|].
    replace (i - 1 + 1) with i in Hpos by lia.
    eapply dict_getitem_lookup; [|done]. rewrite Hkeys. apply NoDup_seq.
Qed.

Lemma convert_1d_dense_capacity :
  shape (as_ndarray capacity) ∈ [[3]; [3; 1]; [1; 3]]
  ∧ valid sample_store (as_ndarray capacity)
  ∧ ∃ d h', convert_1d_array_to_dict capacity sample_store = (Ok d, h')
     ∧ dict_len d = 3
     ∧ ∀ i, 1 ≤ i ≤ 3 →
         ∃ x, cell sample_store (as_ndarray capacity) (i - 1) = Some x
            ∧ dict_getitem i d = Some (Scalar x).
Proof.
  assert (valid sample_store (as_ndarray capacity)) as Hv by solve_valid.
  assert (shape (as_ndarray capacity) ∈ [[3]; [3; 1]; [1; 3]]) as Hsh
    by (right; left).
  split; [exact Hsh|]. split; [exact Hv|].
  exact (convert_1d_dense sample_store capacity 3 Hsh Hv).
Defined.

(** C3, as stated, fails: the 3 x 4 [cost] table keeps two axes after
    squeezing, and [convert_1d_array_to_dict] returns a dict of its three
    rows instead of raising. *)
Lemma convert_1d_accepts_cost_matrix :
  squeeze_shape (shape (as_ndarray cost)) = [3; 4]
  ∧ convert_1d_array_to_dict cost sample_store
    = (Ok [(1, View (mk_ndarray 0 0 [4]));
           (2, View (mk_ndarray 0 4 [4]));
           (3, View (mk_ndarray 0 8 [4]))], sample_store)
  ∧ (convert_1d_array_to_dict cost sample_store).1 ≠ Raise ShapeError.
Proof. split_and!; [reflexivity..|discriminate]. Qed.

(** C3, amended. For every input table on which two or more axes remain
    after squeezing, [convert_1d_array_to_dict] raises nothing: it returns a
    dict with one entry per index of the first remaining axis, of length n,
    whose value at key i in 1..n is the view of the sub-table at position
    i-1 along that axis. The store is left as it was. *)
Theorem convert_1d_two_axes_rows {A} (h : heap A) (t : pyobj)
    (n n' : nat) (rest : list nat) :
  squeeze_shape (shape (as_ndarray t)) = n :: n' :: rest →
  ∃ d, convert_1d_array_to_dict t h = (Ok d, h)
     ∧ dict_len d = n
     ∧ ∀ i, 1 ≤ i ≤ n →
         dict_getitem i d
         = Some (View (sub_array (squeeze (as_ndarray t)) (i - 1))).
Proof.
  intros Hsh. eexists. split; [by apply (convert_1d_rank2 t h n n' rest)|].
  split.
  - unfold dict_len. by rewrite length_fmap, length_seq.
  - intros i Hi. apply (dict_getitem_lookup _ _ _ (i - 1)).
    + rewrite <-list_fmap_compose. apply NoDup_fmap_2; [|apply NoDup_seq].
      intros x y; simpl; lia.
    + rewrite list_lookup_fmap, lookup_seq_lt by lia. simpl.
      by replace (i - 1 + 1) with i by lia.
Qed.

Lemma convert_1d_two_axes_rows_cost :
  squeeze_shape (shape (as_ndarray cost)) = [3; 4]
  ∧ ∃ d, convert_1d_array_to_dict cost sample_store = (Ok d, sample_store)
     ∧ dict_len d = 3
     ∧ ∀ i, 1 ≤ i ≤ 3 →
         dict_getitem i d
         = Some (View (sub_array (squeeze (as_ndarray cost)) (i - 1))).
Proof.
  split; [reflexivity|].
  apply (convert_1d_two_axes_rows sample_store cost 3 4 []). reflexivity.
Defined.

(** C4, as stated, fails: on a table of three axes
    [convert_2d_array_to_dict] returns a dict, on an empty one-axis table it
    returns the empty dict, and on the one-axis [demand] table the error is
    IndexError. *)
Lemma convert_2d_off_rank_outcomes :
  convert_2d_array_to_dict (PyNdarray (mk_ndarray 0 0 [1; 2; 3])) sample_store
  = (Ok [((1, 1), View (mk_ndarray 0 0 [3]));
         ((1, 2), View (mk_ndarray 0 3 [3]))], sample_store)
  ∧ convert_2d_array_to_dict (PyNdarray (mk_ndarray 0 0 [0])) sample_store
    = (Ok [], sample_store)
  ∧ convert_2d_array_to_dict demand sample_store
    = (Raise IndexError, sample_store)
  ∧ (convert_2d_array_to_dict demand sample_store).1 ≠ Raise ShapeError.
Proof. split_and!; [reflexivity..|discriminate]. Qed.

(** C4, amended. For every input table whose number of axes is not two,
    [convert_2d_array_to_dict] leaves the store as it was and
    - raises IndexError when the table has no axis, or one axis of length
      at least 1;
    - returns the empty dict when the table has one axis of length 0;
    - returns, when the table has three axes or more, a dict with one entry
      per pair of indices of the first two axes, whose value at key (i, j)
      is the view of the sub-table at position (i-1, j-1). *)
Theorem convert_2d_off_rank {A} (h : heap A) (t : pyobj) :
  length (shape (as_ndarray t)) ≠ 2 →
  convert_2d_array_to_dict t h
  = match shape (as_ndarray t) with
    | [] => (Raise IndexError, h)
    | [n] => if decide (n = 0) then (Ok [], h) else (Raise IndexError, h)
    | m :: n :: _ =>
        (Ok (mjoin ((λ i, (λ j, ((i + 1, j + 1),
                                  View (sub_array2 (as_ndarray t) i j)))
                             <$> seq 0 n) <$> seq 0 m)), h)
    end.
Proof.
  intros Hrank.
  destruct (shape (as_ndarray t)) as [|m [|n [|p rest]]] eqn:Hsh.
  - by apply convert_2d_rank0.
  - by apply convert_2d_rank1.
  - done.
  - by apply (convert_2d_rank3 t h m n p rest).
Qed.

Lemma convert_2d_off_rank_demand :
  length (shape (as_ndarray demand)) ≠ 2
  ∧ convert_2d_array_to_dict demand sample_store
    = (Raise IndexError, sample_store).
Proof.
  assert (length (shape (as_ndarray demand)) ≠ 2) as Hrank by (simpl; lia).
  split; [exact Hrank|].
  exact (convert_2d_off_rank sample_store demand Hrank).
Defined.

(** C5, as stated, fails: [convert_1d_array_to_dict] produces from the
    3 x 4 [cost] table a dict of 3 entries, not of the 12 the extents of the
    table multiply to. *)
Lemma convert_1d_cost_not_dense :
  ∃ d, convert_1d_array_to_dict cost sample_store = (Ok d, sample_store)
     ∧ dict_len d = 3
     ∧ size (as_ndarray cost) = 12
     ∧ dict_len d ≠ size (as_ndarray cost).
Proof. eexists. split_and!; [reflexivity..|]. vm_compute. lia. Qed.

(** C5, amended. Every dict produced by [convert_2d_array_to_dict] from a
    table of exactly two axes, and every dict produced by
    [convert_1d_array_to_dict] from a table with at most one axis of length
    other than 1, has every key component in [1, extent] of its axis, has
    no key twice, holds every key of that range, and has as many entries as
    the table has cells (the product of its extents). *)
Theorem parameter_map_dense {A} (h : heap A) (t : pyobj) :
  valid h (as_ndarray t) →
  (∀ m n, shape (as_ndarray t) = [m; n] →
     ∃ d, convert_2d_array_to_dict t h = (Ok d, h)
        ∧ (∀ i j, (i, j) ∈ dict_keys d → 1 ≤ i ≤ m ∧ 1 ≤ j ≤ n)
        ∧ (∀ i j, 1 ≤ i ≤ m → 1 ≤ j ≤ n → (i, j) ∈ dict_keys d)
        ∧ NoDup (dict_keys d)
        ∧ dict_len d = m * n)
  ∧ (length (squeeze_shape (shape (as_ndarray t))) ≤ 1 →
     ∃ d h', convert_1d_array_to_dict t h = (Ok d, h')
        ∧ (∀ i, i ∈ dict_keys d ↔ 1 ≤ i ≤ size (as_ndarray t))
        ∧ NoDup (dict_keys d)
        ∧ dict_len d = size (as_ndarray t)).
Proof.
  intros Hv. split.
  - intros m n Hsh.
    destruct (convert_2d_matrix h t m n Hsh Hv)
      as (d & Hrun & Hlen & Hnd & Hrange & Hd).
    exists d. split_and!; [done| | |done..].
    + intros i j Hk. apply (Hrange (i, j) Hk).
    + intros i j Hi Hj. destruct (Hd (i - 1) (j - 1)) as (x & _ & Hpos); [lia..|].
      replace (i - 1 + 1) with i in Hpos by lia.
      replace (j - 1 + 1) with j in Hpos by lia.
      unfold dict_keys. change (i, j) with ((i, j, Scalar x).1).
      by eapply list_elem_of_fmap_2, list_elem_of_lookup_2.
  - intros Hrank.
    destruct (convert_1d_vector h t Hrank Hv) as (d & h' & Hrun & _ & Hkeys & _).
    exists d, h'. unfold dict_keys, dict_len. split_and!; [done| | |].
    + intros i. rewrite Hkeys, elem_of_seq. lia.
    + rewrite Hkeys. apply NoDup_seq.
    + by rewrite <-(length_fmap fst), Hkeys, length_seq.
Qed.

Lemma parameter_map_dense_cost :
  valid sample_store (as_ndarray cost)
  ∧ valid sample_store (as_ndarray capacity)
  ∧ length (squeeze_shape (shape (as_ndarray capacity))) ≤ 1
  ∧ (∃ d, convert_2d_array_to_dict cost sample_store = (Ok d, sample_store)
      ∧ (∀ i j, (i, j) ∈ dict_keys d → 1 ≤ i ≤ 3 ∧ 1 ≤ j ≤ 4)
      ∧ (∀ i j, 1 ≤ i ≤ 3 → 1 ≤ j ≤ 4 → (i, j) ∈ dict_keys d)
      ∧ NoDup (dict_keys d)
      ∧ dict_len d = 3 * 4)
  ∧ (∃ d h', convert_1d_array_to_dict capacity sample_store = (Ok d, h')
      ∧ (∀ i, i ∈ dict_keys d ↔ 1 ≤ i ≤ size (as_ndarray capacity))
      ∧ NoDup (dict_keys d)
      ∧ dict_len d = size (as_ndarray capacity)).
Proof.
  assert (valid sample_store (as_ndarray cost)) as Hv by solve_valid.
  assert (valid sample_store (as_ndarray capacity)) as Hv' by solve_valid.
  assert (length (squeeze_shape (shape (as_ndarray capacity))) ≤ 1) as Hrank
    by (vm_compute; lia).
  split_and!; [exact Hv|exact Hv'|exact Hrank| |].
  - exact (proj1 (parameter_map_dense sample_store cost Hv) 3 4 eq_refl).
  - exact (proj2 (parameter_map_dense sample_store capacity Hv') Hrank).
Defined.

(** C6. For every table that holds exactly one value v once squeezed (every
    axis has length 1, as in a 1 x 1 table), [convert_1d_array_to_dict]
    returns the single-entry dict {1: v}; the value is copied to one fresh
    buffer of the store. *)
Theorem convert_1d_single_value {A} (h : heap A) (t : pyobj) (v : A) :
  squeeze_shape (shape (as_ndarray t)) = [] →
  cell h (as_ndarray t) 0 = Some v →
  convert_1d_array_to_dict t h = (Ok [(1, Scalar v)], h ++ [[v]]).
Proof. apply convert_1d_single. Qed.

Lemma convert_1d_single_value_cell :
  squeeze_shape (shape (as_ndarray (PyNdarray (mk_ndarray 1 2 [1; 1])))) = []
  ∧ cell sample_store (as_ndarray (PyNdarray (mk_ndarray 1 2 [1; 1]))) 0
    = Some 40%Z
  ∧ convert_1d_array_to_dict (PyNdarray (mk_ndarray 1 2 [1; 1])) sample_store
    = (Ok [(1, Scalar 40%Z)], sample_store ++ [[40%Z]]).
Proof.
  split; [reflexivity|]. split; [reflexivity|].
  apply (convert_1d_single_value sample_store
           (PyNdarray (mk_ndarray 1 2 [1; 1])) 40%Z); reflexivity.
Defined.

(** C7. For every m x n table, the entries of the dict that
    [convert_2d_array_to_dict] returns, taken in the order the dict
    enumerates them, form a sequence of length m * n whose position
    (i-1) * n + (j-1) holds the entry of key (i, j), which is the table cell
    (i-1, j-1). Putting the values of that sequence into a one-column frame
    and reshaping it to (m, n), as the solution cell of the transportation
    notebook does, gives back a table equal to the original one. *)
Theorem reshape_inverts_convert_2d {A} (h : heap A) (t : pyobj) (m n : nat)
    (name : label) :
  shape (as_ndarray t) = [m; n] →
  valid h (as_ndarray t) →
  ∃ d col back,
    convert_2d_array_to_dict t h = (Ok d, h)
    ∧ dict_len d = m * n
    ∧ (∀ i j, 1 ≤ i ≤ m → 1 ≤ j ≤ n →
         ∃ x, cell2 h (as_ndarray t) (i - 1) (j - 1) = Some x
            ∧ d !! ((i - 1) * n + (j - 1)) = Some ((i, j), Scalar x))
    ∧ mapM item_value (dict_values d) = Some col
    ∧ (solution ← frame_of_column col name; solution_reshape solution m n) h
      = (Ok back, h ++ [col])
    ∧ same_table (h ++ [col]) back h (as_ndarray t).
Proof.
  intros Hsh Hv. set (a := as_ndarray t) in *.
  destruct (convert_2d_matrix h t m n Hsh Hv) as (d & Hrun & Hlen & _ & _ & Hd).
  destruct (valid_block h a Hv) as [col Hcol].
  destruct (block_lookup h a col Hcol) as [Hcollen Hcolk].
  assert (size a = m * n) as Hsize
    by (unfold size; rewrite Hsh; simpl; lia).
  exists d, col, (mk_ndarray (length h) 0 [m; n]). split_and!; [done..| | | |].
  - intros i j Hi Hj. destruct (Hd (i - 1) (j - 1)) as (x & Hx & Hpos); [lia..|].
    exists x. split; [done|].
    replace (i - 1 + 1) with i in Hpos by lia.
    by replace (j - 1 + 1) with j in Hpos by lia.
  - apply mapM_Some_2, Forall2_same_length_lookup_2.
    { unfold dict_values. rewrite length_fmap. lia. }
    intros k v x Hv' Hx.
    assert (k < m * n) as Hk.
    { apply lookup_lt_Some in Hx. lia. }
    assert (n ≠ 0) as Hn by lia.
    destruct (Hd (k / n) (k mod n)) as (y & Hy & Hpos).
    { apply Nat.Div0.div_lt_upper_bound. lia. }
    { by apply Nat.mod_upper_bound. }
    replace (k / n * n + k mod n) with k in * by (pose proof (Nat.div_mod_eq k n); lia).
    unfold dict_values in Hv'. rewrite list_lookup_fmap, Hpos in Hv'.
    injection Hv' as <-. simpl.
    unfold cell2 in Hy. fold a in Hy. rewrite Hsh in Hy. simpl in Hy.
    replace (k / n * n + k mod n) with k in Hy by (pose proof (Nat.div_mod_eq k n); lia).
    rewrite Hcolk in Hx by lia. congruence.
  - assert (frame_of_column col name h
            = (Ok {| df_index := LInt <$> range (length col);
                     df_columns := [name];
                     df_values := mk_ndarray (length h) 0 [length col; 1] |},
               h ++ [col])) as Hframe by done.
    erewrite bind_ok by exact Hframe.
    unfold solution_reshape, reshape, size. simpl.
    by rewrite decide_True by lia.
  - split; [done|]. intros k Hk. unfold cell at 1. simpl.
    rewrite list_lookup_middle by done. simpl. apply Hcolk.
    unfold size in Hk. simpl in Hk. lia.
Qed.

Lemma reshape_inverts_convert_2d_cost :
  shape (as_ndarray cost) = [3; 4] ∧ valid sample_store (as_ndarray cost) ∧
  ∃ d col back,
    convert_2d_array_to_dict cost sample_store = (Ok d, sample_store)
    ∧ dict_len d = 3 * 4
    ∧ (∀ i j, 1 ≤ i ≤ 3 → 1 ≤ j ≤ 4 →
         ∃ x, cell2 sample_store (as_ndarray cost) (i - 1) (j - 1) = Some x
            ∧ d !! ((i - 1) * 4 + (j - 1)) = Some ((i, j), Scalar x))
    ∧ mapM item_value (dict_values d) = Some col
    ∧ (solution ← frame_of_column col (LStr "x"); solution_reshape solution 3 4)
        sample_store
      = (Ok back, sample_store ++ [col])
    ∧ same_table (sample_store ++ [col]) back sample_store (as_ndarray cost).
Proof.
  assert (valid sample_store (as_ndarray cost)) as Hv by solve_valid.
  split; [reflexivity|]. split; [exact Hv|].
  exact (reshape_inverts_convert_2d sample_store cost 3 4 (LStr "x") eq_refl Hv).
Defined.

(** C8. Both converters only read the store: every buffer present before a
    run, the input table's among them, is present and unchanged after it
    ([convert_2d_array_to_dict] allocates nothing at all,
    [convert_1d_array_to_dict] at most appends one buffer). And the result
    is a function of the table alone: two runs on equal tables, wherever
    each is stored, both raise the same exception or return dicts with the
    same keys in the same order and the same values (equal numbers, or views
    of equal sub-tables). *)
Theorem conversions_pure_deterministic {A} (h1 h2 : heap A) (t1 t2 : pyobj) :
  same_table h1 (as_ndarray t1) h2 (as_ndarray t2) →
  let r1 := convert_1d_array_to_dict t1 h1 in
  let r2 := convert_1d_array_to_dict t2 h2 in
  let q1 := convert_2d_array_to_dict t1 h1 in
  let q2 := convert_2d_array_to_dict t2 h2 in
  result_rel (dict_equiv r1.2 r2.2) r1.1 r2.1
  ∧ result_rel (dict_equiv q1.2 q2.2) q1.1 q2.1
  ∧ h1 `prefix_of` r1.2 ∧ h2 `prefix_of` r2.2
  ∧ q1.2 = h1 ∧ q2.2 = h2.
Proof.
  intros Hst. cbv zeta. split_and!.
  - by apply convert_1d_rel.
  - rewrite !pure_convert_2d. by apply convert_2d_rel.
  - apply convert_1d_grows.
  - apply convert_1d_grows.
  - apply pure_convert_2d.
  - apply pure_convert_2d.
Qed.

Lemma conversions_pure_deterministic_cost :
  same_table sample_store (as_ndarray cost) other_store (as_ndarray cost_copy)
  ∧ result_rel
      (dict_equiv (convert_2d_array_to_dict cost sample_store).2
                  (convert_2d_array_to_dict cost_copy other_store).2)
      (convert_2d_array_to_dict cost sample_store).1
      (convert_2d_array_to_dict cost_copy other_store).1
  ∧ (convert_2d_array_to_dict cost sample_store).2 = sample_store.
Proof.
  assert (same_table sample_store (as_ndarray cost)
            other_store (as_ndarray cost_copy)) as Hst.
  { split; [reflexivity|]. intros k Hk. vm_compute in Hk.
    repeat (destruct k as [|k]; [reflexivity|]). lia. }
  split; [exact Hst|].
  pose proof (conversions_pure_deterministic sample_store other_store
                cost cost_copy Hst) as (_ & H2d & _ & _ & Hpure & _).
  split; [exact H2d|exact Hpure].
Defined.

(** C9. The converters read only the value grid of a DataFrame or Series:
    applied to a labelled table they return what they return on its bare
    value array, whatever the row and column labels are, so that two tables
    that differ in their labels alone are converted alike. *)
Theorem conversions_ignore_labels {A} (v : ndarray)
    (index columns index' columns' : list label) :
  convert_1d_array_to_dict (A := A) (PyDataFrame (mk_DataFrame index columns v))
  = convert_1d_array_to_dict (PyNdarray v)
  ∧ convert_2d_array_to_dict (A := A) (PyDataFrame (mk_DataFrame index columns v))
    = convert_2d_array_to_dict (PyNdarray v)
  ∧ convert_1d_array_to_dict (A := A) (PySeries (mk_Series index v))
    = convert_1d_array_to_dict (PyNdarray v)
  ∧ convert_2d_array_to_dict (A := A) (PySeries (mk_Series index v))
    = convert_2d_array_to_dict (PyNdarray v)
  ∧ convert_1d_array_to_dict (A := A) (PyDataFrame (mk_DataFrame index columns v))
    = convert_1d_array_to_dict (PyDataFrame (mk_DataFrame index' columns' v))
  ∧ convert_2d_array_to_dict (A := A) (PyDataFrame (mk_DataFrame index columns v))
    = convert_2d_array_to_dict (PyDataFrame (mk_DataFrame index' columns' v))
  ∧ convert_1d_array_to_dict (A := A) (PySeries (mk_Series index v))
    = convert_1d_array_to_dict (PySeries (mk_Series index' v))
  ∧ convert_2d_array_to_dict (A := A) (PySeries (mk_Series index v))
    = convert_2d_array_to_dict (PySeries (mk_Series index' v)).
Proof. by split_and!. Qed.

(** C10. For every table that squeezing brings to one axis of length 0 (an
    empty one-axis table, a 0 x 1 table), [convert_1d_array_to_dict]
    returns the empty dict, raises nothing and leaves the store as it
    was. *)
Theorem convert_1d_empty {A} (h : heap A) (t : pyobj) :
  squeeze_shape (shape (as_ndarray t)) = [0] →
  convert_1d_array_to_dict t h = (Ok [], h).
Proof.
  intros Hsh. rewrite (convert_1d_axes t h 0 []); [done|done|].
  intros _ k Hk. unfold size in Hk.
  rewrite <-prod_squeeze, Hsh in Hk. simpl in Hk. lia.
Qed.

Lemma convert_1d_empty_column :
  squeeze_shape (shape (as_ndarray (PyNdarray (mk_ndarray 0 0 [0; 1])))) = [0]
  ∧ convert_1d_array_to_dict (PyNdarray (mk_ndarray 0 0 [0; 1])) sample_store
    = (Ok [], sample_store).
Proof.
  split; [reflexivity|].
  apply (convert_1d_empty sample_store (PyNdarray (mk_ndarray 0 0 [0; 1]))).
  reflexivity.
Defined.

(** * Further properties of the notebooks' code *)

(** ** Lookups, comprehensions and parameters *)

Section MoreFacts.
Context {A : Type}.
Implicit Types (h : heap A) (a : ndarray) (t : pyobj).


Lemma dict_getitem_is_Some {K V} `{EqDecision K} (k : K) (d : list (K * V)) :
  is_Some (dict_getitem k d) ↔ k ∈ d.*1.
Proof.
  induction d as [|[k' v'] d IH]; csimpl.
  - split; [by intros [? ?]|by intros ?%elem_of_nil].
  - case_decide as Hk.
    + subst. split; [left|by eexists].
    + rewrite IH. split; [by right|].
      intros [?|?]%elem_of_cons; [congruence|done].
Qed.

Lemma list_comp_ok {X Y} (f : X → M A Y) (g : X → Y) h (xs : list X) :
  (∀ x, x ∈ xs → f x h = (Ok (g x), h)) →
  list_comp xs f h = (Ok (g <$> xs), h).
Proof.
  induction xs as [|x xs IH]; intros Hf; [done|]. csimpl.
  erewrite bind_ok by (apply Hf; left).
  erewrite bind_ok; [done|]. apply IH. intros y Hy. apply Hf. by right.
Qed.

Lemma bind_raise_value {X Y} (c : M A X) (f : X → M A Y) h e h' :
  c h = (Raise e, h') → (c ≫= f) h = (Raise e, h').
Proof. intros E. unfold mbind, M_bind. by rewrite E. Qed.

Lemma param_getitem_ok {K} `{EqDecision K} (p : list (K * item A)) k v h :
  dict_getitem k p = Some v → param_getitem p k h = (Ok v, h).
Proof. intros Hk. unfold param_getitem. by rewrite Hk. Qed.


Lemma RangeSet_1 (n : nat) : RangeSet 1 n = seq 1 n.
Proof. unfold RangeSet. f_equal. lia. Qed.

Lemma shape_at_ok a k n h :
  shape a !! k = Some n → shape_at (A := A) a k h = (Ok n, h).
Proof. intros Hk. unfold shape_at. by rewrite Hk. Qed.

(** Every store-backed table converts with [convert_1d_array_to_dict]:
    the keys run over the first axis that squeezing leaves, or are the one
    key 1 when it leaves none. *)
Lemma convert_1d_any_rank h t :
  valid h (as_ndarray t) →
  ∃ d h', convert_1d_array_to_dict t h = (Ok d, h')
     ∧ h `prefix_of` h'
     ∧ d.*1 = seq 1 (default 1 (head (squeeze_shape (shape (as_ndarray t))))).
Proof.
  intros Hv. destruct (squeeze_shape (shape (as_ndarray t))) as [|n rest] eqn:Hsq.
  - destruct (Hv 0) as [x Hx].
    { unfold size. rewrite <-prod_squeeze, Hsq. simpl. lia. }
    exists [(1, Scalar x)], (h ++ [[x]]). split_and!; [|by apply prefix_app_r|done].
    by apply convert_1d_single.
  - eexists _, h. split_and!; [by apply (convert_1d_axes t h n rest)|done|].
    rewrite <-list_fmap_compose. simpl. rewrite <-(fmap_add_seq 1 0).
    apply list_fmap_ext. intros; simpl; lia.
Qed.
End MoreFacts.

(** ** The converters on tables of any shape *)

(** X1. [convert_1d_array_to_dict] raises on no store-backed table, whatever
    its number of axes: it returns a dict whose keys are 1..k in order, k
    being the length of the first axis that squeezing leaves, or 1 when
    squeezing leaves no axis; and it keeps every buffer of the store. *)
Theorem convert_1d_never_raises {A} (h : heap A) (t : pyobj) :
  valid h (as_ndarray t) →
  ∃ d h', convert_1d_array_to_dict t h = (Ok d, h')
     ∧ h `prefix_of` h'
     ∧ dict_keys d
       = seq 1 (default 1 (head (squeeze_shape (shape (as_ndarray t))))).
Proof. apply convert_1d_any_rank. Qed.

Lemma convert_1d_never_raises_cost :
  valid sample_store (as_ndarray cost)
  ∧ ∃ d h', convert_1d_array_to_dict cost sample_store = (Ok d, h')
     ∧ sample_store `prefix_of` h'
     ∧ dict_keys d = seq 1 3.
Proof.
  assert (valid sample_store (as_ndarray cost)) as Hv by solve_valid.
  split; [exact Hv|]. exact (convert_1d_never_raises sample_store cost Hv).
Defined.

(** X2. On a store-backed table, the only exception
    [convert_2d_array_to_dict] can raise is IndexError, and it raises it
    exactly when the table has no axis, or a single axis of length at least
    1; on every other table it returns a dict. *)
Theorem convert_2d_raises_iff {A} (h : heap A) (t : pyobj) (e : exn) :
  valid h (as_ndarray t) →
  (convert_2d_array_to_dict t h).1 = Raise e
  ↔ e = IndexError
    ∧ (shape (as_ndarray t) = [] ∨ ∃ n, shape (as_ndarray t) = [n] ∧ 0 < n).
Proof.
  intros Hv.
  destruct (shape (as_ndarray t)) as [|m [|n [|p rest]]] eqn:Hsh.
  - rewrite (convert_2d_rank0 t h Hsh). simpl. split.
    + intros [= <-]. auto.
    + by intros [-> _].
  - rewrite (convert_2d_rank1 t h m Hsh). case_decide; simpl; split.
    + done.
    + intros [_ [?|(n & [= <-] & ?)]]; [done|lia].
    + intros [= <-]. split; [done|]. right. exists m. split; [done|lia].
    + by intros [-> _].
  - destruct (convert_2d_matrix h t m n Hsh Hv) as (d & -> & _). simpl. split.
    + done.
    + intros [_ [?|(? & ? & _)]]; done.
  - rewrite (convert_2d_rank3 t h m n p rest Hsh). simpl. split.
    + done.
    + intros [_ [?|(? & ? & _)]]; done.
Qed.

Lemma convert_2d_raises_iff_demand :
  valid sample_store (as_ndarray demand)
  ∧ ((convert_2d_array_to_dict demand sample_store).1 = Raise IndexError
     ↔ IndexError = IndexError
       ∧ (shape (as_ndarray demand) = []
          ∨ ∃ n, shape (as_ndarray demand) = [n] ∧ 0 < n)).
Proof.
  assert (valid sample_store (as_ndarray demand)) as Hv by solve_valid.
  split; [exact Hv|].
  exact (convert_2d_raises_iff sample_store demand IndexError Hv).
Defined.

(** X3. On a table of two axes, neither of length 1, the two converters
    agree: the value [convert_2d_array_to_dict] holds at key (i, j) is what
    subscripting with j-1 the row view that [convert_1d_array_to_dict]
    holds at key i gives. *)
Theorem convert_2d_reads_convert_1d_rows {A} (h : heap A) (t : pyobj)
    (m n : nat) :
  shape (as_ndarray t) = [m; n] → m ≠ 1 → n ≠ 1 →
  valid h (as_ndarray t) →
  ∃ d1 d2, convert_1d_array_to_dict t h = (Ok d1, h)
     ∧ convert_2d_array_to_dict t h = (Ok d2, h)
     ∧ ∀ i j, 1 ≤ i ≤ m → 1 ≤ j ≤ n →
         ∃ row v, dict_getitem i d1 = Some (View row)
            ∧ getitem row (j - 1) h = (Ok v, h)
            ∧ dict_getitem (i, j) d2 = Some v.
Proof.
  intros Hsh Hm Hn Hv. set (a := as_ndarray t) in *.
  assert (squeeze_shape (shape a) = [m; n]) as Hsq.
  { rewrite Hsh. unfold squeeze_shape.
    rewrite !filter_cons, filter_nil, !decide_True; done. }
  destruct (convert_2d_matrix h t m n Hsh Hv) as (d2 & Hrun2 & _ & Hnd & _ & Hd2).
  eexists _, d2. split_and!; [by apply (convert_1d_rank2 t h m n [])|done|].
  intros i j Hi Hj. set (row := sub_array (squeeze a) (i - 1)).
  destruct (Hd2 (i - 1) (j - 1)) as (x & Hx & Hpos); [lia..|].
  replace (i - 1 + 1) with i in Hpos by lia.
  replace (j - 1 + 1) with j in Hpos by lia.
  assert (cell h row (j - 1) = Some x) as Hcell.
  { unfold row. rewrite cell_sub_array, cell_squeeze. simpl. fold a.
    rewrite Hsq. simpl. rewrite Nat.mul_1_r.
    unfold cell2 in Hx. fold a in Hx. rewrite Hsh in Hx. by simpl in Hx. }
  exists row, (Scalar x). split_and!.
  - apply (dict_getitem_lookup _ _ _ (i - 1)).
    + rewrite <-list_fmap_compose. apply NoDup_fmap_2; [|apply NoDup_seq].
      intros y z; simpl; lia.
    + rewrite list_lookup_fmap, lookup_seq_lt by lia. simpl.
      by replace (i - 1 + 1) with i by lia.
  - assert (shape row = [n]) as Hrow.
    { unfold row, sub_array. simpl. fold a. by rewrite Hsq. }
    rewrite (getitem_ok h row (j - 1) n []); [|done|lia|by rewrite Hcell].
    do 2 f_equal. unfold item_of. rewrite cell_sub_array. simpl.
    rewrite Hsq. simpl. by rewrite Nat.mul_1_r, Nat.add_0_r, Hcell.
  - by eapply dict_getitem_lookup.
Qed.

Lemma convert_2d_reads_convert_1d_rows_cost :
  shape (as_ndarray cost) = [3; 4] ∧ 3 ≠ 1 ∧ 4 ≠ 1
  ∧ valid sample_store (as_ndarray cost)
  ∧ ∃ d1 d2, convert_1d_array_to_dict cost sample_store = (Ok d1, sample_store)
     ∧ convert_2d_array_to_dict cost sample_store = (Ok d2, sample_store)
     ∧ ∀ i j, 1 ≤ i ≤ 3 → 1 ≤ j ≤ 4 →
         ∃ row v, dict_getitem i d1 = Some (View row)
            ∧ getitem row (j - 1) sample_store = (Ok v, sample_store)
            ∧ dict_getitem (i, j) d2 = Some v.
Proof.
  assert (valid sample_store (as_ndarray cost)) as Hv by solve_valid.
  assert (3 ≠ 1) as H3 by lia. assert (4 ≠ 1) as H4 by lia.
  split_and!; [reflexivity|exact H3|exact H4|exact Hv|].
  exact (convert_2d_reads_convert_1d_rows sample_store cost 3 4 eq_refl H3 H4 Hv).
Defined.

(** X4. Reshaping a one-column solution frame of N values to (m, n) raises
    ValueError when N is not m * n. When N = m * n it gives a view that
    [convert_2d_array_to_dict] turns into a dict of N entries whose value at
    key (i, j) is the value at position (i-1) * n + (j-1) of the column. *)
Theorem reshape_then_convert_2d {A} (h : heap A) (col : list A)
    (name : label) (m n : nat) :
  (length col ≠ m * n →
     (solution ← frame_of_column col name; solution_reshape solution m n) h
     = (Raise ValueError, h ++ [col]))
  ∧ (length col = m * n →
     ∃ arr d,
       (solution ← frame_of_column col name; solution_reshape solution m n) h
       = (Ok arr, h ++ [col])
       ∧ convert_2d_array_to_dict (PyNdarray arr) (h ++ [col])
         = (Ok d, h ++ [col])
       ∧ dict_len d = length col
       ∧ ∀ i j, 1 ≤ i ≤ m → 1 ≤ j ≤ n →
           ∃ x, col !! ((i - 1) * n + (j - 1)) = Some x
              ∧ dict_getitem (i, j) d = Some (Scalar x)).
Proof.
  assert (frame_of_column col name h
          = (Ok {| df_index := LInt <$> range (length col);
                   df_columns := [name];
                   df_values := mk_ndarray (length h) 0 [length col; 1] |},
             h ++ [col])) as Hframe by done.
  split; intros Hlen; erewrite bind_ok by exact Hframe;
    unfold solution_reshape, reshape, size; simpl.
  - by rewrite decide_False by lia.
  - rewrite decide_True by lia.
    set (arr := mk_ndarray (length h) 0 [m; n]).
    assert (∀ k, cell (h ++ [col]) arr k = col !! k) as Hcell.
    { intros k. unfold cell. simpl. by rewrite list_lookup_middle by done. }
    assert (valid (h ++ [col]) arr) as Hv.
    { intros k Hk. rewrite Hcell. apply lookup_lt_is_Some.
      unfold size in Hk. simpl in Hk. lia. }
    destruct (convert_2d_matrix (h ++ [col]) (PyNdarray arr) m n eq_refl Hv)
      as (d & Hrun & Hd & Hnd & _ & Hpos).
    exists arr, d. split_and!; [done|done|unfold dict_len; lia|].
    intros i j Hi Hj. destruct (Hpos (i - 1) (j - 1)) as (x & Hx & Hp); [lia..|].
    replace (i - 1 + 1) with i in Hp by lia.
    replace (j - 1 + 1) with j in Hp by lia.
    exists x. split; [|by eapply dict_getitem_lookup].
    unfold cell2 in Hx. simpl in Hx. by rewrite Hcell in Hx.
Qed.

Lemma reshape_then_convert_2d_six :
  length [1; 2; 3; 4; 5; 6]%Z = 2 * 3
  ∧ ∃ arr d,
      (solution ← frame_of_column [1; 2; 3; 4; 5; 6]%Z (LStr "x");
       solution_reshape solution 2 3) sample_store
      = (Ok arr, sample_store ++ [[1; 2; 3; 4; 5; 6]%Z])
      ∧ convert_2d_array_to_dict (PyNdarray arr)
          (sample_store ++ [[1; 2; 3; 4; 5; 6]%Z])
        = (Ok d, sample_store ++ [[1; 2; 3; 4; 5; 6]%Z])
      ∧ dict_len d = length [1; 2; 3; 4; 5; 6]%Z
      ∧ ∀ i j, 1 ≤ i ≤ 2 → 1 ≤ j ≤ 3 →
          ∃ x, [1; 2; 3; 4; 5; 6]%Z !! ((i - 1) * 3 + (j - 1)) = Some x
             ∧ dict_getitem (i, j) d = Some (Scalar x).
Proof.
  split; [reflexivity|].
  exact (proj2 (reshape_then_convert_2d sample_store [1; 2; 3; 4; 5; 6]%Z
                  (LStr "x") 2 3) eq_refl).
Defined.

(** ** The models: how the declarations run *)

Section ModelFacts.
Context {A : Type}.
Implicit Types (h : heap A) (a : ndarray) (t : pyobj).

Lemma cell_prefix h h' a k x :
  h `prefix_of` h' → cell h a k = Some x → cell h' a k = Some x.
Proof.
  intros Hp. unfold cell. destruct (h !! base a) as [buf|] eqn:Hb; [|done].
  assert (h' !! base a = Some buf) as Hb' by (by eapply prefix_lookup_Some).
  by rewrite Hb'.
Qed.

Lemma valid_prefix h h' a : h `prefix_of` h' → valid h a → valid h' a.
Proof.
  intros Hp Hv k Hk. destruct (Hv k Hk) as [x Hx].
  exists x. by eapply cell_prefix.
Qed.

Lemma cell_prefix_inv h h' a k x :
  h `prefix_of` h' → is_Some (cell h a k) → cell h' a k = Some x →
  cell h a k = Some x.
Proof.
  intros Hp [y Hy] Hx. rewrite (cell_prefix _ _ _ _ _ Hp Hy) in Hx. congruence.
Qed.

(** The dict of a one-column (or one-row, or one-axis) table, read in a
    store that has grown since. *)
Lemma convert_1d_vector_later h h1 h2 t d :
  h `prefix_of` h1 → valid h (as_ndarray t) →
  length (squeeze_shape (shape (as_ndarray t))) ≤ 1 →
  convert_1d_array_to_dict t h1 = (Ok d, h2) →
  d.*1 = seq 1 (size (as_ndarray t))
  ∧ ∀ k, k < size (as_ndarray t) →
      ∃ x, cell h (as_ndarray t) k = Some x ∧ d !! k = Some (k + 1, Scalar x).
Proof.
  intros Hp Hv Hrank Hrun.
  destruct (convert_1d_vector h1 t Hrank (valid_prefix _ _ _ Hp Hv))
    as (d' & h' & Hrun' & _ & Hkeys & Hd).
  rewrite Hrun in Hrun'. injection Hrun' as <- <-. split; [done|].
  intros k Hk. destruct (Hd k Hk) as (x & Hx & Hpos). exists x.
  split; [|done]. eapply cell_prefix_inv; eauto.
Qed.

Lemma convert_2d_matrix_later h h1 h2 t m n d :
  h `prefix_of` h1 → valid h (as_ndarray t) →
  shape (as_ndarray t) = [m; n] →
  convert_2d_array_to_dict t h1 = (Ok d, h2) →
  h2 = h1
  ∧ d.*1 = mjoin ((λ i, (λ j, (i, j)) <$> seq 1 n) <$> seq 1 m)
  ∧ ∀ i j, i < m → j < n →
      ∃ x, cell2 h (as_ndarray t) i j = Some x
         ∧ d !! (i * n + j) = Some ((i + 1, j + 1), Scalar x).
Proof.
  intros Hp Hv Hsh Hrun. pose proof (valid_prefix _ _ _ Hp Hv) as Hv1.
  pose proof (convert_2d_axes t h1 m n [] Hsh (λ _, Hv1)) as Haxes.
  destruct (convert_2d_matrix h1 t m n Hsh Hv1) as (d' & Hrun' & _ & _ & _ & Hd).
  rewrite Hrun in Hrun', Haxes. injection Hrun' as <- <-. split_and!; [done| |].
  - injection Haxes as ->. clear.
    rewrite <-(fmap_S_seq 0 m), <-(fmap_S_seq 0 n).
    induction (seq 0 m) as [|i rows IH]; [done|]. csimpl.
    rewrite fmap_app, IH. f_equal. rewrite <-!list_fmap_compose.
    apply list_fmap_ext. intros _ j _. simpl. f_equal; lia.
  - intros i j Hi Hj. destruct (Hd i j Hi Hj) as (x & Hx & Hpos). exists x.
    split; [|done]. unfold cell2 in *. eapply cell_prefix_inv; eauto.
    apply Hv. unfold size. rewrite Hsh. simpl. nia.
Qed.

Lemma pizza_declarations h (profit resource rhs : pyobj) (R P : nat) :
  shape (as_ndarray resource) = [R; P] →
  valid h (as_ndarray profit) → valid h (as_ndarray resource) →
  valid h (as_ndarray rhs) →
  ∃ dp dr db h1 h2,
    convert_1d_array_to_dict profit h = (Ok dp, h1)
    ∧ convert_2d_array_to_dict resource h1 = (Ok dr, h1)
    ∧ convert_1d_array_to_dict rhs h1 = (Ok db, h2)
    ∧ h `prefix_of` h1 ∧ h1 `prefix_of` h2
    ∧ Pizza.abstract_model profit resource rhs h
      = (Ok (Pizza.mk_Model (RangeSet 1 P) (RangeSet 1 R) dp dr db), h2).
Proof.
  intros Hsh Hvp Hvr Hvb.
  destruct (convert_1d_any_rank h profit Hvp) as (dp & h1 & Hdp & Hp1 & _).
  destruct (convert_2d_matrix h1 resource R P Hsh (valid_prefix _ _ _ Hp1 Hvr))
    as (dr & Hdr & _).
  destruct (convert_1d_any_rank h1 rhs (valid_prefix _ _ _ Hp1 Hvb))
    as (db & h2 & Hdb & Hp2 & _).
  exists dp, dr, db, h1, h2. split_and!; [done..|].
  unfold Pizza.abstract_model.
  erewrite bind_ok by (apply shape_at_ok; by rewrite Hsh).
  erewrite bind_ok by (apply shape_at_ok; by rewrite Hsh).
  erewrite bind_ok by exact Hdp. erewrite bind_ok by exact Hdr.
  by erewrite bind_ok by exact Hdb.
Qed.

End ModelFacts.

(** ** The models: how the rules run *)

Section RuleFacts.
Context {A : Type}.
Implicit Types (h : heap A) (a : ndarray) (t : pyobj).

(** Stands for the value of a parameter at a key it does not hold. *)
Local Abbreviation no_value := (View (mk_ndarray 0 0 [])).

Lemma NoDup_pairs (xs ys : list nat) :
  NoDup xs → NoDup ys →
  NoDup (mjoin ((λ i, (λ j, (i, j)) <$> ys) <$> xs)).
Proof.
  intros Hxs Hys. induction Hxs as [|x xs Hx Hxs IH]; csimpl; [constructor|].
  apply NoDup_app. split_and!; [| |done].
  - apply NoDup_fmap_2; [|done]. by intros ? ? [=].
  - intros [r p]. intros (p0 & [= -> ->] & _)%list_elem_of_fmap_1.
    intros (l & Hin & (r' & -> & Hr')%list_elem_of_fmap_1)%list_elem_of_join.
    apply list_elem_of_fmap_1 in Hin as (p1 & [= -> ->] & _). done.
Qed.

Lemma column_rank a n :
  shape a = [n; 1] →
  length (squeeze_shape (shape a)) ≤ 1 ∧ size a = n.
Proof.
  intros Hsh. unfold size, squeeze_shape. rewrite Hsh.
  rewrite !filter_cons, filter_nil. repeat case_decide; simpl; lia.
Qed.



Lemma list_comp_params {X K I} `{EqDecision K} (p : list (K * item A))
    (key : X → K) (var : X → I) h (xs : list X) :
  (∀ x, x ∈ xs → key x ∈ p.*1) →
  list_comp xs (λ x, c ← param_getitem p (key x); mret (Times c (var x))) h
  = (Ok ((λ x, Times (default no_value (dict_getitem (key x) p)) (var x))
           <$> xs), h).
Proof.
  intros Hk. apply list_comp_ok. intros x Hx.
  destruct (dict_getitem_is_Some (key x) p) as [_ Hs].
  destruct (Hs (Hk x Hx)) as [v Hv].
  erewrite bind_ok by (by apply param_getitem_ok). by rewrite Hv.
Qed.

(** A comprehension whose function raises nothing but [e], and raises it
    for some element, raises [e]. *)
Lemma list_comp_raise_some {X Y} (f : X → M A Y) h e (xs : list X) :
  (∀ x, x ∈ xs → (∃ y, f x h = (Ok y, h)) ∨ f x h = (Raise e, h)) →
  (∃ x, x ∈ xs ∧ f x h = (Raise e, h)) →
  list_comp xs f h = (Raise e, h).
Proof.
  induction xs as [|x xs IH]; intros Hall (x0 & Hin & Hx0).
  - by apply elem_of_nil in Hin.
  - csimpl. destruct (Hall x) as [[y Hy]|Hr]; [left| |].
    + erewrite bind_ok by exact Hy.
      apply elem_of_cons in Hin as [->|Hin]; [congruence|].
      unfold mbind at 1, M_bind at 1. rewrite IH; [done| |by eauto].
      intros z Hz. apply Hall. by right.
    + unfold mbind, M_bind. by rewrite Hr.
Qed.

Lemma pizza_model_facts h (profit resource rhs : pyobj) (R P R' P' : nat) :
  shape (as_ndarray resource) = [R; P] →
  shape (as_ndarray profit) = [P'; 1] →
  shape (as_ndarray rhs) = [R'; 1] →
  valid h (as_ndarray profit) → valid h (as_ndarray resource) →
  valid h (as_ndarray rhs) →
  ∃ dp dr db h',
    Pizza.abstract_model profit resource rhs h
    = (Ok (Pizza.mk_Model (RangeSet 1 P) (RangeSet 1 R) dp dr db), h')
    ∧ h `prefix_of` h'
    ∧ dp.*1 = seq 1 P'
    ∧ (∀ k, k < P' → ∃ x, cell h (as_ndarray profit) k = Some x
                       ∧ dp !! k = Some (k + 1, Scalar x))
    ∧ dr.*1 = mjoin ((λ i, (λ j, (i, j)) <$> seq 1 P) <$> seq 1 R)
    ∧ (∀ i j, i < R → j < P →
         ∃ x, cell2 h (as_ndarray resource) i j = Some x
            ∧ dr !! (i * P + j) = Some ((i + 1, j + 1), Scalar x))
    ∧ db.*1 = seq 1 R'
    ∧ (∀ k, k < R' → ∃ x, cell h (as_ndarray rhs) k = Some x
                       ∧ db !! k = Some (k + 1, Scalar x)).
Proof.
  intros Hsr Hsp Hsb Hvp Hvr Hvb.
  destruct (pizza_declarations h profit resource rhs R P Hsr Hvp Hvr Hvb)
    as (dp & dr & db & h1 & h2 & Hdp & Hdr & Hdb & Hp1 & Hp2 & Hrun).
  destruct (column_rank _ _ Hsp) as [Hrp Hnp].
  destruct (column_rank _ _ Hsb) as [Hrb Hnb].
  destruct (convert_1d_vector_later h h h1 profit dp) as [Hkp Hcp]; [done..|].
  destruct (convert_2d_matrix_later h h1 h1 resource R P dr) as (_ & Hkr & Hcr);
    [done..|].
  destruct (convert_1d_vector_later h h1 h2 rhs db) as [Hkb Hcb]; [done..|].
  rewrite Hnp in Hkp, Hcp. rewrite Hnb in Hkb, Hcb.
  exists dp, dr, db, h2. split_and!; [done|by etrans|done..].
Qed.
End RuleFacts.

(** ** The abstract pizza model *)

(** X5. When profit is a P x 1 table and rhs an R x 1 table for a resource
    table of shape R x P, the declarations of the abstract pizza model
    succeed and every parameter is initialised on exactly its index set:
    the keys of [profit_dict] are [pizza_i] = 1..P, the keys of [rhs_dict]
    are [resource_i] = 1..R, and the keys of [resource_dict] are the pairs
    (r, p) of [resource_i] x [pizza_i], resources first. *)
Theorem pizza_params_cover_index_sets {A} (h : heap A)
    (profit resource rhs : pyobj) (R P : nat) :
  shape (as_ndarray resource) = [R; P] →
  shape (as_ndarray profit) = [P; 1] →
  shape (as_ndarray rhs) = [R; 1] →
  valid h (as_ndarray profit) → valid h (as_ndarray resource) →
  valid h (as_ndarray rhs) →
  ∃ model h',
    Pizza.abstract_model profit resource rhs h = (Ok model, h')
    ∧ Pizza.pizza_i model = seq 1 P
    ∧ Pizza.resource_i model = seq 1 R
    ∧ dict_keys (Pizza.profit model) = Pizza.pizza_i model
    ∧ dict_keys (Pizza.rhs model) = Pizza.resource_i model
    ∧ dict_keys (Pizza.resource model)
      = mjoin ((λ r, (λ p, (r, p)) <$> Pizza.pizza_i model)
                 <$> Pizza.resource_i model).
Proof.
  intros Hsr Hsp Hsb Hvp Hvr Hvb.
  destruct (pizza_model_facts h profit resource rhs R P R P
              Hsr Hsp Hsb Hvp Hvr Hvb)
    as (dp & dr & db & h' & Hrun & _ & Hkp & _ & Hkr & _ & Hkb & _).
  eexists _, h'. split; [exact Hrun|]. unfold dict_keys. simpl.
  rewrite !RangeSet_1. by split_and!.
Qed.

Lemma pizza_params_cover_index_sets_sample :
  valid pizza_store (df_values pizza_profit)
  ∧ valid pizza_store (df_values pizza_resource)
  ∧ valid pizza_store (df_values pizza_rhs)
  ∧ ∃ model h',
      Pizza.abstract_model (PyDataFrame pizza_profit)
        (PyDataFrame pizza_resource) (PyDataFrame pizza_rhs) pizza_store
      = (Ok model, h')
      ∧ Pizza.pizza_i model = seq 1 4
      ∧ Pizza.resource_i model = seq 1 5
      ∧ dict_keys (Pizza.profit model) = Pizza.pizza_i model
      ∧ dict_keys (Pizza.rhs model) = Pizza.resource_i model
      ∧ dict_keys (Pizza.resource model)
        = mjoin ((λ r, (λ p, (r, p)) <$> Pizza.pizza_i model)
                   <$> Pizza.resource_i model).
Proof.
  assert (valid pizza_store (df_values pizza_profit)) as Hvp by solve_valid.
  assert (valid pizza_store (df_values pizza_resource)) as Hvr by solve_valid.
  assert (valid pizza_store (df_values pizza_rhs)) as Hvb by solve_valid.
  split_and!; [exact Hvp|exact Hvr|exact Hvb|].
  exact (pizza_params_cover_index_sets pizza_store (PyDataFrame pizza_profit)
           (PyDataFrame pizza_resource) (PyDataFrame pizza_rhs) 5 4
           eq_refl eq_refl eq_refl Hvp Hvr Hvb).
Defined.



Section PizzaRules.
Context {A : Type}.
Implicit Types (h : heap A).

Local Abbreviation no_value := (View (mk_ndarray 0 0 [])).

Lemma pair_in_cross (xs ys : list nat) (r p : nat) :
  r ∈ xs → p ∈ ys → (r, p) ∈ mjoin ((λ i, (λ j, (i, j)) <$> ys) <$> xs).
Proof.
  intros Hr Hp. apply list_elem_of_join. exists ((λ j, (r, j)) <$> ys).
  split; [by apply list_elem_of_fmap_2|].
  by apply (list_elem_of_fmap_2 (λ i, (λ j, (i, j)) <$> ys)).
Qed.


Lemma pizza_resource_rule_run h dp dr db (pizza_i resource_i : list nat)
    (r : nat) :
  (∀ p, p ∈ pizza_i → (r, p) ∈ dr.*1) → r ∈ db.*1 →
  Pizza.resource_rule (Pizza.mk_Model pizza_i resource_i dp dr db) r h
  = (Ok (mk_constraint
           ((λ p, Times (default no_value (dict_getitem (r, p) dr)) p)
              <$> pizza_i)
           Le (default no_value (dict_getitem r db))), h).
Proof.
  intros Hkr Hkb. unfold Pizza.resource_rule. simpl.
  erewrite bind_ok by (by apply (list_comp_params dr (λ p, (r, p)) id)).
  apply dict_getitem_is_Some in Hkb as [b Hb].
  erewrite bind_ok by (by apply param_getitem_ok). by rewrite Hb.
Qed.
End PizzaRules.





(** ** The concrete pizza model *)

Section ConcreteFacts.
Context {A : Type}.
Implicit Types (h : heap A) (df : DataFrame).

Lemma iloc_ok h df m n i j :
  shape (df_values df) = [m; n] → valid h (df_values df) →
  i < m → j < n →
  iloc df i j h = (Ok (item_of h (sub_array2 (df_values df) i j)), h).
Proof.
  intros Hsh Hv Hi Hj. unfold iloc. eapply getitem2_ok; [done..|].
  intros _. apply Hv. unfold size. rewrite Hsh. simpl. nia.
Qed.

Lemma iloc_out_of_bounds h df m n i j :
  shape (df_values df) = [m; n] → ¬ (i < m ∧ j < n) →
  iloc df i j h = (Raise IndexError, h).
Proof.
  intros Hsh Hij. unfold iloc, getitem2. rewrite Hsh. by rewrite decide_False.
Qed.

Lemma iloc_terms_ok h df m n (row col : nat → nat) (xs : list nat) :
  shape (df_values df) = [m; n] → valid h (df_values df) →
  (∀ i, i ∈ xs → row i < m ∧ col i < n) →
  list_comp xs (λ i, c ← iloc df (row i) (col i); mret (Times c i)) h
  = (Ok ((λ i, Times (item_of h (sub_array2 (df_values df) (row i) (col i))) i)
           <$> xs), h).
Proof.
  intros Hsh Hv Hin. apply list_comp_ok. intros i Hi.
  destruct (Hin i Hi). by erewrite bind_ok by (by eapply iloc_ok).
Qed.

Lemma iloc_terms_raise h df m n (row col : nat → nat) (xs : list nat) :
  shape (df_values df) = [m; n] → valid h (df_values df) →
  (∃ i, i ∈ xs ∧ ¬ (row i < m ∧ col i < n)) →
  list_comp xs (λ i, c ← iloc df (row i) (col i); mret (Times c i)) h
  = (Raise IndexError, h).
Proof.
  intros Hsh Hv (i0 & Hi0 & Hout). apply list_comp_raise_some.
  - intros i _. destruct (decide (row i < m ∧ col i < n)) as [[? ?]|Hno].
    + left. eexists. by erewrite bind_ok by (by eapply iloc_ok).
    + right. by erewrite bind_raise_value by (by eapply iloc_out_of_bounds).
  - exists i0. split; [done|].
    by erewrite bind_raise_value by (by eapply iloc_out_of_bounds).
Qed.

Lemma concrete_objective_run h profit n c :
  shape (df_values profit) = [n; c] → valid h (df_values profit) →
  4 ≤ n → 1 ≤ c →
  Pizza.concrete_objective profit h
  = (Ok ((λ i, Times (item_of h (sub_array2 (df_values profit) i 0)) i)
           <$> seq 0 4), h).
Proof.
  intros Hsh Hv Hn Hc.
  apply (iloc_terms_ok h profit n c id (λ _, 0)); [done..|].
  intros i [_ Hi]%elem_of_seq. simpl. lia.
Qed.

Lemma concrete_objective_fail h profit n c :
  shape (df_values profit) = [n; c] → valid h (df_values profit) →
  ¬ (4 ≤ n ∧ 1 ≤ c) →
  Pizza.concrete_objective profit h = (Raise IndexError, h).
Proof.
  intros Hsh Hv Hno.
  apply (iloc_terms_raise h profit n c id (λ _, 0)); [done..|].
  destruct (decide (1 ≤ c)).
  - exists n. split; [apply elem_of_seq|]; simpl; lia.
  - exists 0. split; [apply elem_of_seq|]; simpl; lia.
Qed.

Lemma concrete_constraint_run h resource rhs R P k c r :
  shape (df_values resource) = [R; P] → shape (df_values rhs) = [k; c] →
  valid h (df_values resource) → valid h (df_values rhs) →
  r < R → 4 ≤ P → r < k → 1 ≤ c →
  Pizza.concrete_constraint resource rhs r h
  = (Ok (mk_constraint
           ((λ i, Times (item_of h (sub_array2 (df_values resource) r i)) i)
              <$> seq 0 4)
           Le (item_of h (sub_array2 (df_values rhs) r 0))), h).
Proof.
  intros Hsr Hsb Hvr Hvb Hr HP Hk Hc. unfold Pizza.concrete_constraint.
  erewrite bind_ok.
  2:{ apply (iloc_terms_ok h resource R P (λ _, r) id); [done..|].
      intros i [_ Hi]%elem_of_seq. simpl. lia. }
  by erewrite bind_ok by (eapply iloc_ok; [done..|lia]).
Qed.

Lemma concrete_constraint_fail h resource rhs R P k c r :
  shape (df_values resource) = [R; P] → shape (df_values rhs) = [k; c] →
  valid h (df_values resource) → valid h (df_values rhs) →
  ¬ (r < R ∧ 4 ≤ P ∧ r < k ∧ 1 ≤ c) →
  Pizza.concrete_constraint resource rhs r h = (Raise IndexError, h).
Proof.
  intros Hsr Hsb Hvr Hvb Hno. unfold Pizza.concrete_constraint.
  destruct (decide (r < R ∧ 4 ≤ P)) as [[Hr HP]|Hlhs].
  - erewrite bind_ok.
    2:{ apply (iloc_terms_ok h resource R P (λ _, r) id); [done..|].
        intros i [_ Hi]%elem_of_seq. simpl. lia. }
    erewrite bind_raise_value; [done|].
    eapply iloc_out_of_bounds; [done|]. lia.
  - erewrite bind_raise_value; [done|].
    apply (iloc_terms_raise h resource R P (λ _, r) id); [done..|].
    destruct (decide (r < R)).
    + exists P. split; [apply elem_of_seq|]; simpl; lia.
    + exists 0. split; [apply elem_of_seq|]; simpl; lia.
Qed.
End ConcreteFacts.

Section ConcreteModel.
Context {A : Type}.
Implicit Types (h : heap A) (profit resource rhs : DataFrame).

Lemma concrete_model_run h profit resource rhs n c R P k c' :
  shape (df_values profit) = [n; c] →
  shape (df_values resource) = [R; P] →
  shape (df_values rhs) = [k; c'] →
  valid h (df_values profit) → valid h (df_values resource) →
  valid h (df_values rhs) →
  4 ≤ n → 1 ≤ c → 5 ≤ R → 4 ≤ P → 5 ≤ k → 1 ≤ c' →
  Pizza.concrete_model profit resource rhs h
  = (Ok ((λ i, Times (item_of h (sub_array2 (df_values profit) i 0)) i)
           <$> seq 0 4,
         (λ r, mk_constraint
                 ((λ i, Times (item_of h (sub_array2 (df_values resource) r i)) i)
                    <$> seq 0 4)
                 Le (item_of h (sub_array2 (df_values rhs) r 0)))
           <$> seq 0 5), h).
Proof.
  intros Hsp Hsr Hsb Hvp Hvr Hvb Hn Hc HR HP Hk Hc'.
  unfold Pizza.concrete_model.
  erewrite bind_ok by (by eapply concrete_objective_run).
  do 5 (erewrite bind_ok by (eapply concrete_constraint_run; [done..|lia|done|lia|done])).
  done.
Qed.

Lemma concrete_model_fail h profit resource rhs n c R P k c' :
  shape (df_values profit) = [n; c] →
  shape (df_values resource) = [R; P] →
  shape (df_values rhs) = [k; c'] →
  valid h (df_values profit) → valid h (df_values resource) →
  valid h (df_values rhs) →
  ¬ (4 ≤ n ∧ 1 ≤ c ∧ 5 ≤ R ∧ 4 ≤ P ∧ 5 ≤ k ∧ 1 ≤ c') →
  Pizza.concrete_model profit resource rhs h = (Raise IndexError, h).
Proof.
  intros Hsp Hsr Hsb Hvp Hvr Hvb Hno. unfold Pizza.concrete_model.
  destruct (decide (4 ≤ n ∧ 1 ≤ c)) as [[? ?]|?];
    [erewrite bind_ok by (by eapply concrete_objective_run)
    |by erewrite bind_raise_value by (by eapply concrete_objective_fail)].
  do 5 (match goal with
        | |- (Pizza.concrete_constraint _ _ ?r ≫= _) _ = _ =>
            destruct (decide (r < R ∧ 4 ≤ P ∧ r < k ∧ 1 ≤ c')) as [(? & ? & ? & ?)|?];
            [erewrite bind_ok by (by eapply concrete_constraint_run)
            |by erewrite bind_raise_value by (by eapply concrete_constraint_fail)]
        end).
  lia.
Qed.
End ConcreteModel.



(** X10. The concrete pizza model raises IndexError as soon as one table is
    smaller than the four pizzas and five resources written into it: fewer
    than 4 profit rows, fewer than 5 rows or 4 columns of resource, fewer
    than 5 rhs rows, or a profit or rhs table without a column. *)
Theorem concrete_model_small_tables {A} (h : heap A)
    (profit resource rhs : DataFrame) (n c R P k c' : nat) :
  shape (df_values profit) = [n; c] →
  shape (df_values resource) = [R; P] →
  shape (df_values rhs) = [k; c'] →
  valid h (df_values profit) → valid h (df_values resource) →
  valid h (df_values rhs) →
  n < 4 ∨ c = 0 ∨ R < 5 ∨ P < 4 ∨ k < 5 ∨ c' = 0 →
  Pizza.concrete_model profit resource rhs h = (Raise IndexError, h).
Proof.
  intros Hsp Hsr Hsb Hvp Hvr Hvb Hsmall.
  eapply concrete_model_fail; [done..|]. lia.
Qed.

Lemma concrete_model_small_tables_sample :
  valid pizza_store (mk_ndarray 0 0 [3; 1])
  ∧ valid pizza_store (df_values pizza_resource)
  ∧ valid pizza_store (df_values pizza_rhs)
  ∧ (3 < 4 ∨ 1 = 0 ∨ 5 < 5 ∨ 4 < 4 ∨ 5 < 5 ∨ 1 = 0)
  ∧ Pizza.concrete_model
      (mk_DataFrame [LInt 0; LInt 1; LInt 2] [LStr "profit"]
         (mk_ndarray 0 0 [3; 1]))
      pizza_resource pizza_rhs pizza_store
    = (Raise IndexError, pizza_store).
Proof.
  assert (valid pizza_store (mk_ndarray 0 0 [3; 1])) as Hvp by solve_valid.
  assert (valid pizza_store (df_values pizza_resource)) as Hvr by solve_valid.
  assert (valid pizza_store (df_values pizza_rhs)) as Hvb by solve_valid.
  assert (3 < 4 ∨ 1 = 0 ∨ 5 < 5 ∨ 4 < 4 ∨ 5 < 5 ∨ 1 = 0) as Hsmall by lia.
  split_and!; [exact Hvp|exact Hvr|exact Hvb|exact Hsmall|].
  exact (concrete_model_small_tables pizza_store
           (mk_DataFrame [LInt 0; LInt 1; LInt 2] [LStr "profit"]
              (mk_ndarray 0 0 [3; 1]))
           pizza_resource pizza_rhs 3 1 5 4 5 1
           eq_refl eq_refl eq_refl Hvp Hvr Hvb Hsmall).
Defined.

Section Equivalence.
Context {A : Type}.
Implicit Types (h : heap A).

Local Abbreviation no_value := (View (mk_ndarray 0 0 [])).

Lemma convert_1d_keeps_store h (t : pyobj) :
  squeeze_shape (shape (as_ndarray t)) ≠ [] →
  (convert_1d_array_to_dict t h).2 = h.
Proof.
  intros Hsq. rewrite convert_1d_unfold. cbv zeta.
  rewrite decide_False by done. apply pure_convert_1d_loop.
Qed.

Lemma vector_param_is_cell h a (d : list (nat * item A)) (n c i : nat) :
  shape a = [n; c] → valid h a → 1 ≤ c →
  d.*1 = seq 1 n →
  (∀ k, k < n → ∃ x, cell h a (k * c) = Some x
                   ∧ d !! k = Some (k + 1, Scalar x)) →
  i < n →
  default no_value (dict_getitem (S i) d) = item_of h (sub_array2 a i 0).
Proof.
  intros Hsh Hv Hc Hkeys Hd Hi.
  destruct (Hd i Hi) as (x & Hx & Hpos).
  destruct (item_of_matrix h a n c i 0 Hsh Hv) as (y & Hy & ->); [lia..|].
  unfold cell2 in Hy. rewrite Hsh in Hy. simpl in Hy.
  rewrite Nat.add_0_r in Hy. rewrite Hx in Hy. injection Hy as <-.
  replace (i + 1) with (S i) in Hpos by lia.
  rewrite (dict_getitem_lookup (S i) (Scalar x) d i); [done| |done].
  rewrite Hkeys. apply NoDup_seq.
Qed.
End Equivalence.

(** X11. On tables of exactly the shapes the concrete pizza model is
    written for (profit 4 x 1, resource 5 x 4, rhs 5 x 1), the abstract
    model is the same linear program: its objective is the concrete
    objective and its constraints are the concrete constraints, in the same
    order and with the same coefficients and right-hand sides, the variable
    x[i] of the concrete model being x[i+1] in the abstract one. *)
Theorem abstract_pizza_model_is_concrete {A} (h : heap A)
    (profit resource rhs : DataFrame) :
  shape (df_values profit) = [4; 1] →
  shape (df_values resource) = [5; 4] →
  shape (df_values rhs) = [5; 1] →
  valid h (df_values profit) → valid h (df_values resource) →
  valid h (df_values rhs) →
  ∃ obj cons model,
    Pizza.concrete_model profit resource rhs h = (Ok (obj, cons), h)
    ∧ Pizza.abstract_model (PyDataFrame profit) (PyDataFrame resource)
        (PyDataFrame rhs) h
      = (Ok model, h)
    ∧ Pizza.objective_rule model h = (Ok (term_map S <$> obj), h)
    ∧ indexed_constraints (Pizza.resource_i model) (Pizza.resource_rule model) h
      = (Ok (constraint_map S <$> cons), h).
Proof.
  intros Hsp Hsr Hsb Hvp Hvr Hvb.
  destruct (pizza_declarations h (PyDataFrame profit) (PyDataFrame resource)
              (PyDataFrame rhs) 5 4 Hsr Hvp Hvr Hvb)
    as (dp & dr & db & h1 & h2 & Hdp & Hdr & Hdb & Hp1 & Hp2 & Hrun).
  assert (h1 = h) as ->.
  { rewrite <-(convert_1d_keeps_store h (PyDataFrame profit)), Hdp; [done|].
    simpl. by rewrite Hsp. }
  assert (h2 = h) as ->.
  { rewrite <-(convert_1d_keeps_store h (PyDataFrame rhs)), Hdb; [done|].
    simpl. by rewrite Hsb. }
  destruct (column_rank _ _ Hsp) as [Hrp Hnp].
  destruct (column_rank _ _ Hsb) as [Hrb Hnb].
  destruct (convert_1d_vector_later h h h (PyDataFrame profit) dp)
    as [Hkp Hcp]; [done..|].
  destruct (convert_2d_matrix_later h h h (PyDataFrame resource) 5 4 dr)
    as (_ & Hkr & Hcr); [done..|].
  destruct (convert_1d_vector_later h h h (PyDataFrame rhs) db)
    as [Hkb Hcb]; [done..|].
  cbn [as_ndarray] in Hkp, Hcp, Hkr, Hcr, Hkb, Hcb, Hnp, Hnb.
  rewrite Hnp in Hkp, Hcp.
  rewrite Hnb in Hkb, Hcb.
  assert (∀ k, k < 4 → ∃ x, cell h (df_values profit) (k * 1) = Some x
                          ∧ dp !! k = Some (k + 1, Scalar x)) as Hcp'.
  { intros k Hk. rewrite Nat.mul_1_r. by apply Hcp. }
  assert (∀ k, k < 5 → ∃ x, cell h (df_values rhs) (k * 1) = Some x
                          ∧ db !! k = Some (k + 1, Scalar x)) as Hcb'.
  { intros k Hk. rewrite Nat.mul_1_r. by apply Hcb. }
  eexists _, _, _. split.
  { eapply concrete_model_run; [done..|lia|lia|lia|lia|lia|lia]. }
  split; [exact Hrun|]. split.
  - unfold Pizza.objective_rule. cbn [Pizza.pizza_i Pizza.profit].
    rewrite RangeSet_1, (list_comp_params dp id id).
    2:{ intros p Hp. by rewrite Hkp. }
    do 2 f_equal. rewrite <-(fmap_S_seq 0 4), <-!list_fmap_compose.
    apply list_fmap_ext. intros _ i [_ Hi]%list_elem_of_lookup_2%elem_of_seq.
    simpl. f_equal.
    by apply (vector_param_is_cell h (df_values profit) dp 4 1 i).
  - unfold indexed_constraints. cbn [Pizza.resource_i]. rewrite RangeSet_1.
    erewrite (list_comp_ok _ _ h (seq 1 5)).
    2:{ intros r Hr. apply pizza_resource_rule_run.
        - intros p Hp. rewrite Hkr. apply pair_in_cross; [done|].
          by rewrite <-RangeSet_1.
        - by rewrite Hkb. }
    do 2 f_equal. rewrite <-(fmap_S_seq 0 5), <-!list_fmap_compose.
    apply list_fmap_ext. intros _ r [_ Hr]%list_elem_of_lookup_2%elem_of_seq.
    unfold constraint_map. cbn [c_lhs c_rel c_rhs compose]. f_equal.
    + rewrite RangeSet_1.
      rewrite <-(fmap_S_seq 0 4), <-!list_fmap_compose.
      apply list_fmap_ext. intros _ i [_ Hi]%list_elem_of_lookup_2%elem_of_seq.
      simpl. f_equal.
      destruct (Hcr r i) as (x & Hx & Hpos); [lia..|].
      destruct (item_of_matrix h (df_values resource) 5 4 r i Hsr Hvr)
        as (y & Hy & ->); [lia..|].
      rewrite Hx in Hy. injection Hy as <-.
      replace (r + 1) with (S r) in Hpos by lia.
      replace (i + 1) with (S i) in Hpos by lia.
      rewrite (dict_getitem_lookup (S r, S i) (Scalar x) dr (r * 4 + i));
        [done| |done].
      rewrite Hkr. apply NoDup_pairs; apply NoDup_seq.
    + by apply (vector_param_is_cell h (df_values rhs) db 5 1 r).
Qed.

Lemma abstract_pizza_model_is_concrete_sample :
  valid pizza_store (df_values pizza_profit)
  ∧ valid pizza_store (df_values pizza_resource)
  ∧ valid pizza_store (df_values pizza_rhs)
  ∧ ∃ obj cons model,
      Pizza.concrete_model pizza_profit pizza_resource pizza_rhs pizza_store
      = (Ok (obj, cons), pizza_store)
      ∧ Pizza.abstract_model (PyDataFrame pizza_profit)
          (PyDataFrame pizza_resource) (PyDataFrame pizza_rhs) pizza_store
        = (Ok model, pizza_store)
      ∧ Pizza.objective_rule model pizza_store
        = (Ok (term_map S <$> obj), pizza_store)
      ∧ indexed_constraints (Pizza.resource_i model)
          (Pizza.resource_rule model) pizza_store
        = (Ok (constraint_map S <$> cons), pizza_store).
Proof.
  assert (valid pizza_store (df_values pizza_profit)) as Hvp by solve_valid.
  assert (valid pizza_store (df_values pizza_resource)) as Hvr by solve_valid.
  assert (valid pizza_store (df_values pizza_rhs)) as Hvb by solve_valid.
  split_and!; [exact Hvp|exact Hvr|exact Hvb|].
  exact (abstract_pizza_model_is_concrete pizza_store
           pizza_profit pizza_resource pizza_rhs
           eq_refl eq_refl eq_refl Hvp Hvr Hvb).
Defined.

(** ** The transportation model *)

Section TransportationFacts.
Context {A : Type}.
Implicit Types (h : heap A).

Local Abbreviation no_value := (View (mk_ndarray 0 0 [])).






End TransportationFacts.

Section Grid.
Context {X Y Z : Type}.


End Grid.







Section MissingCost.
Context {A : Type}.
Implicit Types (h : heap A).


End MissingCost.



(** ** Reading the solution back *)

Section SolutionFacts.
Context {A : Type} (nan : A).
Implicit Types (h : heap A) (vars : list (label * list A)).

(** The one-column frame of the [j]-th variable, stored after [h]. *)
Local Abbreviation frame_at h := (λ (j : nat) (v : label * list A),
  {| df_index := LInt <$> range (length v.2);
     df_columns := [v.1];
     df_values := mk_ndarray (length h + j) 0 [length v.2; 1] |}).

Lemma frames_run h vars :
  list_comp vars (λ v, frame_of_column v.2 v.1) h
  = (Ok (imap (frame_at h) vars), h ++ vars.*2).
Proof.
  revert h. induction vars as [|v vars IH]; intros h; csimpl.
  { by rewrite app_nil_r. }
  erewrite bind_ok by reflexivity. erewrite bind_ok by apply IH.
  unfold mret, M_ret. f_equal; [|by rewrite <-app_assoc]. f_equal.
  f_equal; [by rewrite Nat.add_0_r|].
  apply imap_ext. intros j w _. simpl. rewrite length_app. simpl.
  do 2 f_equal. lia.
Qed.

Lemma list_comp_Forall2 {X Y} (f : X → M A Y) h (xs : list X) (ys : list Y) :
  Forall2 (λ x y, f x h = (Ok y, h)) xs ys →
  list_comp xs f h = (Ok ys, h).
Proof.
  induction 1 as [|x y xs ys Hxy _ IH]; csimpl; [done|].
  erewrite bind_ok by exact Hxy. by erewrite bind_ok by exact IH.
Qed.

Lemma read_block_whole h (a : ndarray) (buf : list A) :
  h !! base a = Some buf → offset a = 0 → size a = length buf →
  read_block a h = (Ok buf, h).
Proof.
  intros Hb Ho Hs. unfold read_block.
  assert (mapM (cell h a) (seq 0 (size a)) = Some buf) as ->; [|done].
  apply mapM_Some_2, Forall2_same_length_lookup_2.
  { by rewrite length_seq. }
  intros k i x [-> Hk]%lookup_seq Hx. unfold cell. rewrite Hb, Ho. by simpl.
Qed.

Lemma read_frames h vars :
  list_comp (imap (frame_at h) vars) (λ df, read_block (df_values df))
    (h ++ vars.*2)
  = (Ok vars.*2, h ++ vars.*2).
Proof.
  apply list_comp_Forall2, Forall2_same_length_lookup_2.
  { by rewrite length_imap, length_fmap. }
  intros j df col Hdf Hcol.
  rewrite list_lookup_imap in Hdf. rewrite list_lookup_fmap in Hcol.
  destruct (vars !! j) as [v|] eqn:Hv; [|done].
  injection Hdf as <-. injection Hcol as <-.
  apply read_block_whole; simpl; [|done|unfold size; simpl; lia].
  rewrite lookup_app_r by lia.
  replace (length h + j - length h) with j by lia.
  by rewrite list_lookup_fmap, Hv.
Qed.

Lemma join_singletons {X Y} (g : X → Y) (l : list X) :
  mjoin ((λ x, [g x]) <$> l) = g <$> l.
Proof. induction l as [|x l IH]; csimpl; [done|]. by rewrite IH. Qed.

Lemma frame_columns h vars :
  mjoin (df_columns <$> imap (frame_at h) vars) = vars.*1.
Proof.
  rewrite <-(join_singletons fst). f_equal.
  apply list_eq. intros j.
  rewrite !list_lookup_fmap, list_lookup_imap.
  by destruct (vars !! j).
Qed.

(** [pd.concat] of the frames of one variable or more. *)
Lemma concat_run h vars :
  vars ≠ [] →
  (dfs ← list_comp vars (λ v, frame_of_column v.2 v.1);
   pd_concat_axis1 nan dfs) h
  = (Ok {| df_index := LInt <$> range (max_list (length <$> vars.*2));
           df_columns := vars.*1;
           df_values := mk_ndarray (length (h ++ vars.*2)) 0
                          [max_list (length <$> vars.*2); length vars] |},
     (h ++ vars.*2)
       ++ [concat_cells nan vars.*2 (max_list (length <$> vars.*2))]).
Proof.
  intros Hne. erewrite bind_ok by apply frames_run.
  unfold pd_concat_axis1.
  destruct (imap (frame_at h) vars) as [|df dfs] eqn:Hdfs.
  { destruct vars; [done|]. by rewrite imap_cons in Hdfs. }
  rewrite <-Hdfs. erewrite bind_ok by apply read_frames.
  unfold alloc, mbind, M_bind, mret, M_ret.
  by rewrite frame_columns, length_imap.
Qed.

Lemma concat_cells_lookup (cols : list (list A)) (n i j : nat) (col : list A) :
  i < n → cols !! j = Some col →
  concat_cells nan cols n !! (i * length cols + j)
  = Some (default nan (col !! i)).
Proof.
  intros Hi Hj. unfold concat_cells, range.
  apply join_lookup_Some_same_length' with (n := length cols).
  - apply Forall_fmap, Forall_forall. intros x _. simpl. by rewrite length_fmap.
  - by eapply lookup_lt_Some.
  - eexists. rewrite list_lookup_fmap, lookup_seq_lt by done. split; [done|].
    by rewrite list_lookup_fmap, Hj.
Qed.

Lemma bind_assoc {X Y Z} (c : M A X) (f : X → M A Y) (g : Y → M A Z) h :
  (x ← c; y ← f x; g y) h = (y ← (x ← c; f x); g y) h.
Proof.
  unfold mbind, M_bind. by destruct (c h) as [[x|e] h'].
Qed.

Lemma indexed_vars_none (instance : list (label * component A)) :
  (∀ xc, xc ∈ instance → xc.2 = OtherComponent) →
  indexed_vars instance = [].
Proof.
  induction instance as [|[x c] instance IH]; intros Hall; [done|].
  assert (c = OtherComponent) as -> by (apply (Hall (x, c)); left).
  unfold indexed_vars in *. csimpl. apply IH.
  intros xc Hxc. apply Hall. by right.
Qed.
End SolutionFacts.

(** X16. On an instance that has no indexed variable, [parse_solution]
    raises ValueError ([pd.concat] is given an empty list), whatever the
    index asked for, and allocates nothing. *)
Theorem parse_solution_no_indexed_variable {A} (nan : A) {Model : Type}
    (model : Model) (instance : list (label * component A))
    (index : option (list label)) (h : heap A) :
  (∀ xc, xc ∈ instance → xc.2 = OtherComponent) →
  parse_solution nan model instance index h = (Raise ValueError, h).
Proof.
  intros Hall. unfold parse_solution.
  by rewrite (indexed_vars_none instance Hall).
Qed.

Lemma parse_solution_no_indexed_variable_sample :
  (∀ xc, xc ∈ [(LStr "obj", @OtherComponent Z)] → xc.2 = OtherComponent)
  ∧ parse_solution 0%Z tt [(LStr "obj", OtherComponent)] (Some pizzas)
      sample_store
    = (Raise ValueError, sample_store).
Proof.
  assert (∀ xc, xc ∈ [(LStr "obj", @OtherComponent Z)] → xc.2 = OtherComponent)
    as Hall.
  { intros xc Hxc. apply list_elem_of_singleton in Hxc. by subst. }
  split; [exact Hall|].
  exact (parse_solution_no_indexed_variable 0%Z tt
           [(LStr "obj", OtherComponent)] (Some pizzas) sample_store Hall).
Defined.

(** X17. On an instance with at least one indexed variable, and an index
    that is absent or has as many labels as the longest variable has
    values, [parse_solution] returns a frame with one column per indexed
    variable, named after it and in the order of the instance, and with n
    rows, n being the largest number of values of a variable: the cell at
    row i of the column of a variable is its i-th value, or NaN when it has
    fewer than i+1 values. The row labels are the index given, or 0..n-1.
    No buffer of the store is changed. *)
Theorem parse_solution_columns {A} (nan : A) {Model : Type} (model : Model)
    (instance : list (label * component A)) (index : option (list label))
    (h : heap A) :
  indexed_vars instance ≠ [] →
  (∀ idx, index = Some idx →
     length idx = max_list (length <$> (indexed_vars instance).*2)) →
  ∃ df h',
    parse_solution nan model instance index h = (Ok df, h')
    ∧ h `prefix_of` h'
    ∧ df_columns df = (indexed_vars instance).*1
    ∧ df_index df
      = default (LInt <$> range (max_list (length <$> (indexed_vars instance).*2)))
          index
    ∧ shape (df_values df)
      = [max_list (length <$> (indexed_vars instance).*2);
         length (indexed_vars instance)]
    ∧ ∀ i j v,
        i < max_list (length <$> (indexed_vars instance).*2) →
        indexed_vars instance !! j = Some v →
        cell2 h' (df_values df) i j = Some (default nan (v.2 !! i)).
Proof.
  intros Hne Hidx. unfold parse_solution.
  set (vars := indexed_vars instance) in *.
  set (n := max_list (length <$> vars.*2)) in *.
  assert (∀ i j v, i < n → vars !! j = Some v →
            cell2 ((h ++ vars.*2) ++ [concat_cells nan vars.*2 n])
              (mk_ndarray (length (h ++ vars.*2)) 0 [n; length vars]) i j
            = Some (default nan (v.2 !! i))) as Hcells.
  { intros i j v Hi Hv. unfold cell2, cell. simpl.
    rewrite list_lookup_middle by done. simpl.
    rewrite <-(length_fmap snd vars).
    apply concat_cells_lookup; [done|]. by rewrite list_lookup_fmap, Hv. }
  assert (h `prefix_of` (h ++ vars.*2) ++ [concat_cells nan vars.*2 n])
    as Hprefix.
  { rewrite <-app_assoc. by apply prefix_app_r. }
  rewrite bind_assoc. erewrite bind_ok by (by apply concat_run).
  fold n. destruct index as [idx|].
  - unfold set_index. simpl.
    rewrite decide_True
      by (unfold range; by rewrite length_fmap, length_seq, (Hidx idx eq_refl)).
    eexists _, _. split; [done|]. simpl. by split_and!.
  - eexists _, _. split; [done|]. simpl. by split_and!.
Qed.

Lemma parse_solution_columns_two_stage :
  indexed_vars two_stage_instance ≠ []
  ∧ (∀ idx : list label, None = Some idx →
       length idx
       = max_list (length <$> (indexed_vars two_stage_instance).*2))
  ∧ ∃ df h',
      parse_solution 0%Z tt two_stage_instance None sample_store = (Ok df, h')
      ∧ sample_store `prefix_of` h'
      ∧ df_columns df = (indexed_vars two_stage_instance).*1
      ∧ df_index df
        = default
            (LInt <$> range (max_list
                               (length <$> (indexed_vars two_stage_instance).*2)))
            None
      ∧ shape (df_values df)
        = [max_list (length <$> (indexed_vars two_stage_instance).*2);
           length (indexed_vars two_stage_instance)]
      ∧ ∀ i j v,
          i < max_list (length <$> (indexed_vars two_stage_instance).*2) →
          indexed_vars two_stage_instance !! j = Some v →
          cell2 h' (df_values df) i j = Some (default 0%Z (v.2 !! i)).
Proof.
  assert (indexed_vars two_stage_instance ≠ []) as Hne by discriminate.
  assert (∀ idx : list label, None = Some idx →
            length idx
            = max_list (length <$> (indexed_vars two_stage_instance).*2))
    as Hidx by discriminate.
  split; [exact Hne|]. split; [exact Hidx|].
  exact (parse_solution_columns 0%Z tt two_stage_instance None sample_store
           Hne Hidx).
Defined.

(** X18. On an instance with at least one indexed variable,
    [parse_solution] raises ValueError when the index it is given has not
    as many labels as the frame has rows (the largest number of values of a
    variable); the buffers already in the store are kept. *)
Theorem parse_solution_index_mismatch {A} (nan : A) {Model : Type}
    (model : Model) (instance : list (label * component A))
    (idx : list label) (h : heap A) :
  indexed_vars instance ≠ [] →
  length idx ≠ max_list (length <$> (indexed_vars instance).*2) →
  ∃ h', parse_solution nan model instance (Some idx) h = (Raise ValueError, h')
      ∧ h `prefix_of` h'.
Proof.
  intros Hne Hidx. unfold parse_solution.
  rewrite bind_assoc. erewrite bind_ok by (by apply concat_run).
  unfold set_index. simpl. unfold range.
  rewrite decide_False by (by rewrite length_fmap, length_seq).
  eexists. split; [done|]. rewrite <-app_assoc. by apply prefix_app_r.
Qed.

Lemma parse_solution_index_mismatch_pizza :
  indexed_vars pizza_instance ≠ []
  ∧ length plants ≠ max_list (length <$> (indexed_vars pizza_instance).*2)
  ∧ ∃ h', parse_solution 0%Z tt pizza_instance (Some plants) sample_store
          = (Raise ValueError, h')
        ∧ sample_store `prefix_of` h'.
Proof.
  assert (indexed_vars pizza_instance ≠ []) as Hne by discriminate.
  assert (length plants
          ≠ max_list (length <$> (indexed_vars pizza_instance).*2)) as Hidx
    by (vm_compute; lia).
  split; [exact Hne|]. split; [exact Hidx|].
  exact (parse_solution_index_mismatch 0%Z tt pizza_instance plants
           sample_store Hne Hidx).
Defined.
